(** * SecureCode detection-and-fusion engine: a shallow embedding

    Sources embedded here:
    - [client/src/lib/patternMatching.ts]: the signature registry
      [VULNERABILITY_PATTERNS], [detectPatterns], [calculateConfidence];
    - [client/src/lib/aiAnalysis.ts]: [combineAnalysisResults];
    - [server/storage.ts] and the Gemini variant of the server analysis
      module: the two [calculateFallbackScore] functions and the severity
      normalisation of [analyzeCodeSecurity].

    Modelling conventions.
    - A JavaScript string is a [string]; an [ascii] stands for one UTF-16 code
      unit in the range U+0000..U+00FF (Latin-1).  Code units above U+00FF are
      outside the model.
    - JavaScript numbers are exact: [Z] for line numbers, columns and the
      integer confidences of the pattern matcher, [Q] for confidences and
      scores that may be fractional.  NaN is [None] where it can arise.
    - Objects that are mutated in place live in an explicit heap and lists
      hold references to them. *)

From Stdlib Require Import ZArith QArith Qround Qminmax String Ascii List Bool Lia.
From stdpp Require Import base list pretty.
Import ListNotations.

Local Open Scope Z_scope.
Local Open Scope string_scope.

(** ** JavaScript string primitives *)

Module JsString.

Definition code (c : ascii) : N := N_of_ascii c.

(** [String.prototype.toLowerCase] on one Latin-1 code unit. *)
Definition toLowerCase_char (c : ascii) : ascii :=
  let n := code c in
  if ((65 <=? n) && (n <=? 90))%N
     || ((192 <=? n) && (n <=? 222) && negb (n =? 215))%N
  then ascii_of_N (n + 32) else c.

Fixpoint toLowerCase (s : string) : string :=
  match s with
  | EmptyString => EmptyString
  | String c s' => String (toLowerCase_char c) (toLowerCase s')
  end.

(** White space and line terminators stripped by [trim] (Latin-1 part). *)
Definition is_ws (c : ascii) : bool :=
  let n := code c in
  ((9 <=? n) && (n <=? 13) || (n =? 32) || (n =? 160))%N.

Fixpoint trimStart (s : string) : string :=
  match s with
  | EmptyString => EmptyString
  | String c s' => if is_ws c then trimStart s' else s
  end.

Fixpoint trimEnd (s : string) : string :=
  match s with
  | EmptyString => EmptyString
  | String c s' =>
      match trimEnd s' with
      | EmptyString => if is_ws c then EmptyString else String c EmptyString
      | r => String c r
      end
  end.

Definition trim (s : string) : string := trimEnd (trimStart s).

(** [s.startsWith(p)] *)
Fixpoint startsWith (s p : string) : bool :=
  match p, s with
  | EmptyString, _ => true
  | String a p', String b s' => Ascii.eqb a b && startsWith s' p'
  | String _ _, EmptyString => false
  end.

(** [s.includes(sub)] *)
Fixpoint includes (s sub : string) : bool :=
  startsWith s sub ||
  match s with
  | EmptyString => false
  | String _ s' => includes s' sub
  end.

(** [s.indexOf(sub)], [-1] when [sub] does not occur. *)
Fixpoint indexOf_from (i : Z) (s sub : string) : Z :=
  if startsWith s sub then i
  else match s with
       | EmptyString => -1
       | String _ s' => indexOf_from (i + 1) s' sub
       end.

Definition indexOf (s sub : string) : Z := indexOf_from 0 s sub.

(** [s.split(sep)] for a one-character separator: never empty. *)
Fixpoint split (sep : ascii) (s : string) : list string :=
  match s with
  | EmptyString => [EmptyString]
  | String c s' =>
      if Ascii.eqb c sep then EmptyString :: split sep s'
      else match split sep s' with
           | h :: t => String c h :: t
           | [] => [String c EmptyString]
           end
  end.

(** [s.substring(0, n)] *)
Fixpoint take (n : nat) (s : string) : string :=
  match n, s with
  | S n', String c s' => String c (take n' s')
  | _, _ => EmptyString
  end.

Fixpoint drop (n : nat) (s : string) : string :=
  match n, s with
  | S n', String _ s' => drop n' s'
  | _, _ => s
  end.

(** Template-literal rendering of an integer. *)
Definition show (z : Z) : string := pretty z.

End JsString.

(** ** Regular expressions (the fragment used by the registry)

    The matcher follows the continuation-passing semantics of the ECMAScript
    specification: a matcher takes the input that is left and a continuation,
    and backtracks by trying the alternatives in priority order.  All patterns
    carry the flags [g] and [i]; every starred or plussed atom of the registry
    is a single-character atom, so [Star] takes a character class. *)

Module Regex.
Import JsString.

Inductive re : Type :=
| Empty
| Chr (f : ascii -> bool)
| Seq (a b : re)
| Alt (a b : re)
| Star (f : ascii -> bool)
| NotAhead (r : re)
| WordBoundary.

(** Continuations receive the previous character (for [\b]) and the rest. *)
Definition cont : Type := option ascii -> string -> option string.

Definition is_word (c : ascii) : bool :=
  let n := code c in
  ((48 <=? n) && (n <=? 57) || (65 <=? n) && (n <=? 90)
   || (97 <=? n) && (n <=? 122) || (n =? 95))%N.

Definition word_before (prev : option ascii) : bool :=
  match prev with Some c => is_word c | None => false end.

Definition word_after (s : string) : bool :=
  match s with String c _ => is_word c | EmptyString => false end.

(** Greedy repetition of a character class. *)
Fixpoint star (f : ascii -> bool) (prev : option ascii) (s : string) (k : cont)
  : option string :=
  match s with
  | String c s' =>
      if f c then
        match star f (Some c) s' k with
        | Some r => Some r
        | None => k prev s
        end
      else k prev s
  | EmptyString => k prev s
  end.

Fixpoint run (r : re) (prev : option ascii) (s : string) (k : cont)
  : option string :=
  match r with
  | Empty => k prev s
  | Chr f =>
      match s with
      | String c s' => if f c then k (Some c) s' else None
      | EmptyString => None
      end
  | Seq a b => run a prev s (fun p' s' => run b p' s' k)
  | Alt a b =>
      match run a prev s k with
      | Some e => Some e
      | None => run b prev s k
      end
  | Star f => star f prev s k
  | NotAhead a =>
      match run a prev s (fun _ s' => Some s') with
      | Some _ => None
      | None => k prev s
      end
  | WordBoundary =>
      if xorb (word_before prev) (word_after s) then k prev s else None
  end.

(** One attempt at the current position: the input left after the match. *)
Definition exec_here (r : re) (prev : option ascii) (s : string) : option string :=
  run r prev s (fun _ s' => Some s').

(** The loop of [String.prototype.match] for a global pattern: leftmost match
    from [lastIndex], then [lastIndex] moves to the end of the match (one
    further after an empty match).  [skip] counts the characters still covered
    by the previous match; [pos] is the index of the head of [s]. *)
Fixpoint scan (r : re) (prev : option ascii) (pos : nat) (s : string) (skip : nat)
  : list (nat * string) :=
  match skip with
  | S n =>
      match s with
      | String c s' => scan r (Some c) (S pos) s' n
      | EmptyString => []
      end
  | O =>
      match exec_here r prev s with
      | Some rest =>
          let n := (String.length s - String.length rest)%nat in
          (pos, take n s) ::
            match s with
            | String c s' => scan r (Some c) (S pos) s' (Nat.pred n)
            | EmptyString => []
            end
      | None =>
          match s with
          | String c s' => scan r (Some c) (S pos) s' O
          | EmptyString => []
          end
      end
  end.

(** Matches with their start index, in order. *)
Definition match_positions (r : re) (line : string) : list (nat * string) :=
  scan r None O line O.

(** [line.match(r)]: the matched substrings ([null] is the empty list). *)
Definition js_match (r : re) (line : string) : list string :=
  map snd (match_positions r line).

(** *** Pattern syntax helpers *)

Definition upper (c : ascii) : N :=
  let n := code c in if ((97 <=? n) && (n <=? 122))%N then (n - 32)%N else n.

(** A pattern character under the [i] flag. *)
Definition ci (c : ascii) : ascii -> bool := fun x => (upper x =? upper c)%N.

Fixpoint lit (s : string) : re :=
  match s with
  | EmptyString => Empty
  | String c EmptyString => Chr (ci c)
  | String c s' => Seq (Chr (ci c)) (lit s')
  end.

Fixpoint alts (l : list re) : re :=
  match l with
  | [] => NotAhead Empty
  | [a] => a
  | a :: l' => Alt a (alts l')
  end.

Fixpoint seqs (l : list re) : re :=
  match l with
  | [] => Empty
  | [a] => a
  | a :: l' => Seq a (seqs l')
  end.

Definition words (l : list string) : re := alts (map lit l).

Fixpoint one_of (chars : string) (x : ascii) : bool :=
  match chars with
  | EmptyString => false
  | String c s' => Ascii.eqb x c || one_of s' x
  end.

Definition none_of (chars : string) : ascii -> bool := fun x => negb (one_of chars x).

Definition in_range (lo hi : N) (x : ascii) : bool :=
  ((lo <=? code x) && (code x <=? hi))%N.

(** [.]: anything but a line terminator. *)
Definition dot : ascii -> bool := fun x => negb ((code x =? 10) || (code x =? 13))%N.

(** [\s] *)
Definition space : ascii -> bool := is_ws.

Definition alpha (x : ascii) : bool := in_range 65 90 x || in_range 97 122 x.
Definition digit (x : ascii) : bool := in_range 48 57 x.

(** [a{n,}] for a class [f]. *)
Fixpoint at_least (n : nat) (f : ascii -> bool) : re :=
  match n with
  | O => Star f
  | S n' => Seq (Chr f) (at_least n' f)
  end.

(** ['] or the double quote *)
Definition quote : ascii -> bool := fun x => ((code x =? 39) || (code x =? 34))%N.

End Regex.

(** ** The pattern matcher ([client/src/lib/patternMatching.ts]) *)

Module Client.
Import JsString Regex.

Inductive Severity : Type := CRITICAL | HIGH | MEDIUM | LOW.

Inductive DetectionMethod : Type := PATTERN | AI | HYBRID.

(** The [Vulnerability] interface of the client ([vulnerabilityScanner] is
    imported by both client files; its fields are the ones they write). *)
Record Vulnerability : Type := mkVulnerability {
  id : string;
  type : string;
  severity : Severity;
  line : Z;
  column : Z;
  message : string;
  suggestion : string;
  confidence : Q;
  detectionMethod : DetectionMethod
}.

Module Pattern.
Record VulnerabilityPattern : Type := mkPattern {
  id : string;
  name : string;
  pattern : re;
  severity : Severity;
  description : string;
  suggestion : string;
  languages : list string
}.
End Pattern.

(** The signatures, in registry order.  In the comments that quote the source
    pattern, [dq] stands for the double-quote character. *)

Definition sql_keywords : re :=
  words ["SELECT"; "INSERT"; "UPDATE"; "DELETE"; "FROM"; "WHERE"].

Definition alnum_plus : ascii -> bool :=
  fun x => alpha x || digit x || one_of "+/=" x.

Definition ident_start : ascii -> bool := fun x => alpha x || one_of "_" x.
Definition ident_char : ascii -> bool := fun x => alpha x || digit x || one_of "_" x.

(** /(SELECT|INSERT|UPDATE|DELETE|FROM|WHERE).*\+.*['dq]/gi *)
Definition sql_injection_1 : Pattern.VulnerabilityPattern :=
  Pattern.mkPattern "sql_injection_1" "SQL Injection - String Concatenation"
  (seqs [sql_keywords; Star dot; lit "+"; Star dot; Chr quote])
  CRITICAL
  "SQL query constructed using string concatenation, vulnerable to SQL injection"
  "Use parameterized queries or prepared statements instead of string concatenation"
  ["javascript"; "typescript"; "php"; "python"; "java"; "c#"].

(** /(SELECT|INSERT|UPDATE|DELETE|FROM|WHERE).*\$\{.*\}/gi *)
Definition sql_injection_2 : Pattern.VulnerabilityPattern :=
  Pattern.mkPattern "sql_injection_2" "SQL Injection - Template Literals"
  (seqs [sql_keywords; Star dot; lit "${"; Star dot; lit "}"])
  CRITICAL
  "SQL query using template literals with variables, vulnerable to SQL injection"
  "Use parameterized queries instead of template literals for SQL queries"
  ["javascript"; "typescript"].

(** /\.(query|execute|executeSql)\s*\(\s*['dq]\s*(SELECT|INSERT|UPDATE|DELETE).*[\+\$]/gi *)
Definition sql_injection_3 : Pattern.VulnerabilityPattern :=
  Pattern.mkPattern "sql_injection_3" "SQL Injection - Dynamic Query Building"
  (seqs [lit "."; words ["query"; "execute"; "executeSql"]; Star space; lit "(";
         Star space; Chr quote; Star space;
         words ["SELECT"; "INSERT"; "UPDATE"; "DELETE"]; Star dot;
         Chr (one_of "+$")])
  CRITICAL
  "Dynamic SQL query construction detected"
  "Use ORM methods or parameterized queries"
  ["javascript"; "typescript"; "python"; "java"].

(** /\.innerHTML\s*=\s*(?!['dq][^<>]*['dq])/gi *)
Definition xss_1 : Pattern.VulnerabilityPattern :=
  Pattern.mkPattern "xss_1" "XSS - innerHTML Assignment"
  (seqs [lit ".innerHTML"; Star space; lit "="; Star space;
         NotAhead (seqs [Chr quote; Star (none_of "<>"); Chr quote])])
  HIGH
  "Direct assignment to innerHTML without sanitization"
  "Use textContent instead of innerHTML, or sanitize input with a library like DOMPurify"
  ["javascript"; "typescript"].

(** /document\.write\s*\(/gi *)
Definition xss_2 : Pattern.VulnerabilityPattern :=
  Pattern.mkPattern "xss_2" "XSS - Document Write"
  (seqs [lit "document.write"; Star space; lit "("])
  HIGH
  "Using document.write() which can lead to XSS vulnerabilities"
  "Use safer DOM manipulation methods like createElement and appendChild"
  ["javascript"; "typescript"].

(** /\beval\s*\(/gi *)
Definition xss_3 : Pattern.VulnerabilityPattern :=
  Pattern.mkPattern "xss_3" "XSS - Eval Function"
  (seqs [WordBoundary; lit "eval"; Star space; lit "("])
  CRITICAL
  "Using eval() function which can execute arbitrary code"
  "Avoid using eval(). Use JSON.parse() for JSON data or other safe alternatives"
  ["javascript"; "typescript"; "python"].

(** /(password|passwd|pwd|secret|key|token|api_key)\s*[:=]\s*['dq][^'dq]{3,}['dq]/gi *)
Definition auth_1 : Pattern.VulnerabilityPattern :=
  Pattern.mkPattern "auth_1" "Hardcoded Credentials"
  (seqs [words ["password"; "passwd"; "pwd"; "secret"; "key"; "token"; "api_key"];
         Star space; Chr (one_of ":="); Star space; Chr quote;
         at_least 3 (fun x => negb (quote x)); Chr quote])
  CRITICAL
  "Hardcoded credentials found in source code"
  "Use environment variables or secure credential storage instead of hardcoding sensitive data"
  ["javascript"; "typescript"; "python"; "java"; "c#"; "php"].

(** /password.*\.length\s*[<>=]+\s*[1-7]\b/gi *)
Definition auth_2 : Pattern.VulnerabilityPattern :=
  Pattern.mkPattern "auth_2" "Weak Password Validation"
  (seqs [lit "password"; Star dot; lit ".length"; Star space;
         at_least 1 (one_of "<>="); Star space; Chr (in_range 49 55);
         WordBoundary])
  MEDIUM
  "Weak password length validation (less than 8 characters)"
  "Enforce strong password policies with minimum 8 characters, mixed case, numbers, and symbols"
  ["javascript"; "typescript"; "python"; "java"; "c#"].

(** /\.(delete|update|create|admin).*\((?![^)]*auth|[^)]*token|[^)]*session)/gi *)
Definition auth_3 : Pattern.VulnerabilityPattern :=
  Pattern.mkPattern "auth_3" "Missing Authentication Check"
  (seqs [lit "."; words ["delete"; "update"; "create"; "admin"]; Star dot; lit "(";
         NotAhead (alts [seqs [Star (none_of ")"); lit "auth"];
                         seqs [Star (none_of ")"); lit "token"];
                         seqs [Star (none_of ")"); lit "session"]])])
  HIGH
  "Potentially sensitive operation without authentication check"
  "Add proper authentication and authorization checks before sensitive operations"
  ["javascript"; "typescript"; "python"; "java"; "c#"; "php"].

(** /\b(md5|sha1|des|rc4)\b/gi *)
Definition crypto_1 : Pattern.VulnerabilityPattern :=
  Pattern.mkPattern "crypto_1" "Weak Cryptographic Algorithm"
  (seqs [WordBoundary; words ["md5"; "sha1"; "des"; "rc4"]; WordBoundary])
  HIGH
  "Use of weak or deprecated cryptographic algorithm"
  "Use strong cryptographic algorithms like SHA-256, AES-256, or bcrypt for hashing"
  ["javascript"; "typescript"; "python"; "java"; "c#"; "php"].

(** /(encrypt|decrypt|cipher).*['dq][a-zA-Z0-9+/=]{16,}['dq]/gi *)
Definition crypto_2 : Pattern.VulnerabilityPattern :=
  Pattern.mkPattern "crypto_2" "Hardcoded Encryption Key"
  (seqs [words ["encrypt"; "decrypt"; "cipher"]; Star dot; Chr quote;
         at_least 16 alnum_plus; Chr quote])
  CRITICAL
  "Hardcoded encryption key detected"
  "Use secure key management systems and never hardcode encryption keys"
  ["javascript"; "typescript"; "python"; "java"; "c#"; "php"].

(** /req\.(body|params|query)\.[a-zA-Z_][a-zA-Z0-9_]*(?![^;]*\.(validate|sanitize|escape|length|match|test))/gi *)
Definition input_1 : Pattern.VulnerabilityPattern :=
  Pattern.mkPattern "input_1" "Missing Input Validation"
  (seqs [lit "req."; words ["body"; "params"; "query"]; lit "."; Chr ident_start;
         Star ident_char;
         NotAhead (seqs [Star (none_of ";"); lit ".";
                         words ["validate"; "sanitize"; "escape"; "length"; "match"; "test"]])])
  MEDIUM
  "Direct use of user input without validation"
  "Validate and sanitize all user inputs before processing"
  ["javascript"; "typescript"].

(** /\.\.(\/|\\)|\.\.%2f|\.\.%5c/gi *)
Definition input_2 : Pattern.VulnerabilityPattern :=
  Pattern.mkPattern "input_2" "Path Traversal Risk"
  (alts [seqs [lit ".."; alts [lit "/"; lit "\"]]; lit "..%2f"; lit "..%5c"])
  HIGH
  "Potential path traversal vulnerability"
  "Validate file paths and restrict access to allowed directories only"
  ["javascript"; "typescript"; "python"; "java"; "c#"; "php"].

(** /\.(upload|multer|formidable)(?![^;]*\.(fileFilter|limits|fileSize))/gi *)
Definition file_1 : Pattern.VulnerabilityPattern :=
  Pattern.mkPattern "file_1" "Unrestricted File Upload"
  (seqs [lit "."; words ["upload"; "multer"; "formidable"];
         NotAhead (seqs [Star (none_of ";"); lit ".";
                         words ["fileFilter"; "limits"; "fileSize"]])])
  HIGH
  "File upload without proper restrictions"
  "Implement file type validation, size limits, and virus scanning for uploads"
  ["javascript"; "typescript"].

(** /\.(stack|stackTrace|printStackTrace|error)(?![^;]*log)/gi *)
Definition info_1 : Pattern.VulnerabilityPattern :=
  Pattern.mkPattern "info_1" "Error Information Disclosure"
  (seqs [lit "."; words ["stack"; "stackTrace"; "printStackTrace"; "error"];
         NotAhead (seqs [Star (none_of ";"); lit "log"])])
  MEDIUM
  "Potential information disclosure through error messages"
  "Log detailed errors server-side but return generic error messages to users"
  ["javascript"; "typescript"; "python"; "java"; "c#"].

(** /session.*secure:\s*false|session.*httpOnly:\s*false/gi *)
Definition session_1 : Pattern.VulnerabilityPattern :=
  Pattern.mkPattern "session_1" "Insecure Session Configuration"
  (alts [seqs [lit "session"; Star dot; lit "secure:"; Star space; lit "false"];
         seqs [lit "session"; Star dot; lit "httpOnly:"; Star space; lit "false"]])
  MEDIUM
  "Insecure session cookie configuration"
  "Set secure: true and httpOnly: true for session cookies in production"
  ["javascript"; "typescript"].

(** /Access-Control-Allow-Origin.*\*|cors.*origin:\s*true/gi *)
Definition cors_1 : Pattern.VulnerabilityPattern :=
  Pattern.mkPattern "cors_1" "Permissive CORS Policy"
  (alts [seqs [lit "Access-Control-Allow-Origin"; Star dot; lit "*"];
         seqs [lit "cors"; Star dot; lit "origin:"; Star space; lit "true"]])
  MEDIUM
  "Overly permissive CORS policy"
  "Restrict CORS to specific trusted domains instead of allowing all origins"
  ["javascript"; "typescript"].

Definition VULNERABILITY_PATTERNS : list Pattern.VulnerabilityPattern :=
  [sql_injection_1; sql_injection_2; sql_injection_3;
   xss_1; xss_2; xss_3;
   auth_1; auth_2; auth_3;
   crypto_1; crypto_2; input_1;
   input_2; file_1; info_1;
   session_1; cors_1].

(** [calculateConfidence(pattern, match, line)] *)
Definition is_comment_line (line : string) : bool :=
  startsWith (trim line) "//" || startsWith (trim line) "/*"
  || startsWith (trim line) "#".

Definition looks_like_test (line : string) : bool :=
  includes (toLowerCase line) "test" || includes (toLowerCase line) "mock".

Definition severity_bonus (s : Severity) : Z :=
  match s with
  | CRITICAL => 20
  | HIGH => 15
  | MEDIUM => 10
  | LOW => 0
  end.

(** The value of [confidence] just before the final clamp. *)
Definition raw_confidence (sev : Severity) (line : string) : Z :=
  let confidence := 70 in
  let confidence := confidence + severity_bonus sev in
  let confidence := if negb (is_comment_line line) then confidence + 10 else confidence in
  let confidence := if looks_like_test line then confidence - 20 else confidence in
  confidence.

Definition calculateConfidence (pattern : Pattern.VulnerabilityPattern)
    (match_ : string) (line : string) : Z :=
  Z.min 100 (Z.max 30 (raw_confidence (Pattern.severity pattern) line)).

(** [fileName.split('.').pop()?.toLowerCase() || ''] *)
Definition fileExtension (fileName : string) : string :=
  match List.last (map Some (split "." fileName)) None with
  | Some e => toLowerCase e
  | None => EmptyString
  end.

(** [languageMap[fileExtension] || 'unknown'].  A key inherited from
    [Object.prototype] (such as [constructor]) yields a value that is not a
    string and that no signature lists; it selects the same signatures as
    ['unknown'], which is what the model returns for it. *)
Definition languageMap (ext : string) : option string :=
  if String.eqb ext "js" then Some "javascript"
  else if String.eqb ext "jsx" then Some "javascript"
  else if String.eqb ext "ts" then Some "typescript"
  else if String.eqb ext "tsx" then Some "typescript"
  else if String.eqb ext "py" then Some "python"
  else if String.eqb ext "java" then Some "java"
  else if String.eqb ext "cs" then Some "c#"
  else if String.eqb ext "php" then Some "php"
  else None.

Definition currentLanguage (fileName : string) : string :=
  match languageMap (fileExtension fileName) with
  | Some l => l
  | None => "unknown"
  end.

Definition list_includes (l : list string) (x : string) : bool :=
  existsb (String.eqb x) l.

Definition applicablePatterns (fileName : string) : list Pattern.VulnerabilityPattern :=
  List.filter (fun pattern =>
            list_includes (Pattern.languages pattern) (currentLanguage fileName)
            || list_includes (Pattern.languages pattern) "all")
         VULNERABILITY_PATTERNS.

(** The object pushed for one element of [matches]. *)
Definition finding (pattern : Pattern.VulnerabilityPattern) (lineIndex : Z)
    (line : string) (match_ : string) : Vulnerability :=
  let columnIndex := indexOf line match_ in
  {| id := Pattern.id pattern ++ "_" ++ show lineIndex ++ "_" ++ show columnIndex;
     type := Pattern.name pattern;
     severity := Pattern.severity pattern;
     line := lineIndex + 1;
     column := columnIndex;
     message := Pattern.description pattern;
     suggestion := Pattern.suggestion pattern;
     confidence := inject_Z (calculateConfidence pattern match_ line);
     detectionMethod := PATTERN |}.

(** The body of the inner [forEach]: one signature on one line. *)
Definition findings_of (pattern : Pattern.VulnerabilityPattern) (lineIndex : Z)
    (line : string) : list Vulnerability :=
  map (finding pattern lineIndex line) (js_match (Pattern.pattern pattern) line).

(** The body of the outer [forEach]: every applicable signature on one line. *)
Definition scan_line (patterns : list Pattern.VulnerabilityPattern)
    (lineIndex : Z) (line : string) : list Vulnerability :=
  flat_map (fun pattern => findings_of pattern lineIndex line) patterns.

Fixpoint scan_lines (patterns : list Pattern.VulnerabilityPattern)
    (lineIndex : Z) (lines : list string) : list Vulnerability :=
  match lines with
  | [] => []
  | line :: rest =>
      (scan_line patterns lineIndex line ++ scan_lines patterns (lineIndex + 1) rest)%list
  end.

Definition detectPatterns (code fileName : string) : list Vulnerability :=
  let lines := split (ascii_of_N 10) code in
  scan_lines (applicablePatterns fileName) 0 lines.

(** *** Calls from untyped JavaScript

    The TypeScript signature admits strings only.  At run time the first
    statement, [code.split], throws a [TypeError] when [code] is [undefined],
    [null], or a primitive without a [split] method; the same holds for
    [fileName.split] two statements later. *)

Inductive JsValue : Type :=
| JsUndefined
| JsNull
| JsNumber (q : Q)
| JsBoolean (b : bool)
| JsString (s : string).

Inductive Outcome (A : Type) : Type :=
| Returns (a : A)
| Throws (error : string).
Arguments Returns {A} a.
Arguments Throws {A} error.

Definition detectPatterns_untyped (code fileName : JsValue) : Outcome (list Vulnerability) :=
  match code with
  | JsString c =>
      match fileName with
      | JsString f => Returns (detectPatterns c f)
      | _ => Throws "TypeError"
      end
  | _ => Throws "TypeError"
  end.

(** ** Result fusion ([client/src/lib/aiAnalysis.ts])

    [combineAnalysisResults] copies the array [patternResults] but not its
    elements, and assigns to fields of those elements.  A heap is the list of
    the objects allocated so far; a reference is an index into it. *)

Definition ref : Type := nat.
Definition heap : Type := list Vulnerability.

Definition near (pv aiVuln : Vulnerability) : bool :=
  (Z.abs (line pv - line aiVuln) <=? 1)%Z.

Definition first_word (s : string) : string :=
  hd EmptyString (split " " (toLowerCase s)).

(** The predicate given to [patternResults.some]. *)
Definition overlaps (pv aiVuln : Vulnerability) : bool :=
  near pv aiVuln && includes (toLowerCase (type pv)) (first_word (type aiVuln)).

(** Evaluating a predicate on the object a reference points to. *)
Definition deref (h : heap) (f : Vulnerability -> bool) (r : ref) : bool :=
  match h !! r with
  | Some v => f v
  | None => false
  end.

(** The object pushed for an AI finding without overlap. *)
Definition as_hybrid (aiVuln : Vulnerability) : Vulnerability :=
  {| id := id aiVuln; type := type aiVuln; severity := severity aiVuln;
     line := line aiVuln; column := column aiVuln; message := message aiVuln;
     suggestion := suggestion aiVuln;
     confidence := Qmin (confidence aiVuln + 10) 100;
     detectionMethod := HYBRID |}.

(** The three assignments made to [overlappingPattern]. *)
Definition boost (pv aiVuln : Vulnerability) : Vulnerability :=
  {| id := id pv; type := type pv; severity := severity pv;
     line := line pv; column := column pv; message := message pv;
     suggestion :=
       if negb (String.eqb (suggestion aiVuln) EmptyString)
          && negb (String.eqb (suggestion aiVuln) (suggestion pv))
       then suggestion pv ++ " AI suggests: " ++ suggestion aiVuln
       else suggestion pv;
     confidence := Qmin (confidence pv + 15) 100;
     detectionMethod := HYBRID |}.

(** One iteration of [aiResults.forEach].  A dangling reference cannot occur in
    JavaScript; the model leaves the state unchanged on one. *)
Definition merge_step (patternResults : list ref) (st : heap * list ref) (a : ref)
  : heap * list ref :=
  let '(h, combined) := st in
  match h !! a with
  | None => st
  | Some aiVuln =>
      let hasOverlap := existsb (deref h (fun pv => overlaps pv aiVuln)) patternResults in
      if negb hasOverlap then
        ((h ++ [as_hybrid aiVuln])%list, (combined ++ [length h])%list)
      else
        match List.find (deref h (fun pv => near pv aiVuln)) patternResults with
        | Some r =>
            match h !! r with
            | Some overlappingPattern =>
                (<[r := boost overlappingPattern aiVuln]> h, combined)
            | None => st
            end
        | None => st
        end
  end.

Definition combineAnalysisResults (h : heap) (patternResults aiResults : list ref)
  : heap * list ref :=
  fold_left (merge_step patternResults) aiResults (h, patternResults).

(** The array a caller receives, with the objects read from the final heap. *)
Definition contents (st : heap * list ref) : list (option Vulnerability) :=
  map (fun r => fst st !! r) (snd st).

End Client.

(** ** Server-side scoring

    The server keeps two analysis modules with the same interfaces: the OpenAI
    one inside [server/storage.ts] and the Gemini one.  Each has its own
    [calculateFallbackScore]. *)

Module Server.

Inductive Severity : Type := low | medium | high | critical.

(** [const weights = { critical: 25, high: 15, medium: 8, low: 3 }] *)
Definition weights (s : Severity) : Z :=
  match s with
  | critical => 25
  | high => 15
  | medium => 8
  | low => 3
  end.

(** One element of [vulnerabilities] as [JSON.parse] delivers it: any field
    may be absent ([None]); a [severity] that is not a string is [None] too. *)
Record RawVulnerability : Type := mkRaw {
  raw_type : option string;
  raw_severity : option string;
  raw_line : option Z;
  raw_column : option Z;
  raw_message : option string;
  raw_suggestion : option string;
  raw_confidence : option Q
}.

(** The four strings of the [Severity] union type. *)
Definition parse_severity (s : string) : option Severity :=
  if String.eqb s "low" then Some low
  else if String.eqb s "medium" then Some medium
  else if String.eqb s "high" then Some high
  else if String.eqb s "critical" then Some critical
  else None.

(** [weights[vuln.severity]] on an unvalidated object: [undefined] is [None]. *)
Definition weights_lookup (key : option string) : option Z :=
  match key with
  | Some s => option_map weights (parse_severity s)
  | None => None
  end.

(** [x || d] on a number that may be absent: [0] and [undefined] are falsy. *)
Definition number_or (x : option Q) (d : Q) : Q :=
  match x with
  | Some q => if Qeq_bool q 0 then d else q
  | None => d
  end.

(** [s || d] on a string that may be absent: the empty string is falsy. *)
Definition string_or (x : option string) (d : string) : string :=
  match x with
  | Some s => if String.eqb s EmptyString then d else s
  | None => d
  end.

(** [Math.round]: the nearest integer, halves upwards. *)
Definition Math_round (x : Q) : Z := Qfloor (x + (1 # 2))%Q.

Module Storage.

(** The [for] loop: [penalty += weights[vuln.severity] * (vuln.confidence || 0.8)].
    An [undefined] weight makes the sum NaN ([None]) for good. *)
Definition add_penalty (penalty : option Q) (vuln : RawVulnerability) : option Q :=
  match penalty, weights_lookup (raw_severity vuln) with
  | Some p, Some w => Some (p + inject_Z w * number_or (raw_confidence vuln) (8 # 10))%Q
  | _, _ => None
  end.

(** [calculateFallbackScore] of [server/storage.ts]; [None] is NaN. *)
Definition calculateFallbackScore (vulnerabilities : list RawVulnerability) : option Q :=
  match vulnerabilities with
  | [] => Some 10%Q
  | _ =>
      match fold_left add_penalty vulnerabilities (Some 0%Q) with
      | Some penalty =>
          let score := Qmax 0 (10 - penalty / 10) in
          Some (inject_Z (Math_round (score * 10)) / 10)%Q
      | None => None
      end
  end.

End Storage.

Module Gemini.

Record Vulnerability : Type := mkVulnerability {
  type : string;
  severity : Severity;
  line : Z;
  column : option Z;
  message : string;
  suggestion : string;
  confidence : Q
}.

(** The four-way [includes] test followed by the default ["medium"]. *)
Definition normalise_severity (s : option string) : Severity :=
  match s with
  | Some x =>
      match parse_severity x with
      | Some sev => sev
      | None => medium
      end
  | None => medium
  end.

(** The callback of [analysis.vulnerabilities.map] in [analyzeCodeSecurity]. *)
Definition normalise (vuln : RawVulnerability) : Vulnerability :=
  {| type := string_or (raw_type vuln) "Unknown";
     severity := normalise_severity (raw_severity vuln);
     line := match raw_line vuln with
             | Some l => if (l =? 0)%Z then 1 else l
             | None => 1
             end;
     column := raw_column vuln;
     message := string_or (raw_message vuln) "Security vulnerability detected";
     suggestion := string_or (raw_suggestion vuln) "Review and fix this issue";
     confidence := Qmax 0 (Qmin 1 (number_or (raw_confidence vuln) (8 # 10))) |}.

(** [vulnerabilities.reduce((total, vuln) => total + weights[vuln.severity], 0)] *)
Definition penalty_of (vulnerabilities : list Vulnerability) : Z :=
  fold_left (fun total vuln => total + weights (severity vuln)) vulnerabilities 0.

(** [calculateFallbackScore] of the Gemini module. *)
Definition calculateFallbackScore (vulnerabilities : list Vulnerability) : Z :=
  Z.max 0 (100 - penalty_of vulnerabilities).

Record Summary : Type := mkSummary {
  n_critical : nat;
  n_high : nat;
  n_medium : nat;
  n_low : nat
}.

Definition severity_eqb (a b : Severity) : bool :=
  match a, b with
  | low, low | medium, medium | high, high | critical, critical => true
  | _, _ => false
  end.

Definition count_severity (s : Severity) (l : list Vulnerability) : nat :=
  length (List.filter (fun v => severity_eqb (severity v) s) l).

Record SecurityAnalysis : Type := mkAnalysis {
  vulnerabilities : list Vulnerability;
  securityScore : Q;
  summary : Summary
}.

(** The validation block of [analyzeCodeSecurity], from the parsed response:
    [vulns] is [None] when [analysis.vulnerabilities] is not an array. *)
Definition validate (vulns : option (list RawVulnerability)) (score : option Q)
  : SecurityAnalysis :=
  let vulnerabilities :=
    match vulns with
    | Some l => map normalise l
    | None => []
    end in
  {| vulnerabilities := vulnerabilities;
     securityScore :=
       Qmax 0 (Qmin 100 (number_or score (inject_Z (calculateFallbackScore vulnerabilities))));
     summary :=
       {| n_critical := count_severity critical vulnerabilities;
          n_high := count_severity high vulnerabilities;
          n_medium := count_severity medium vulnerabilities;
          n_low := count_severity low vulnerabilities |} |}.

End Gemini.

End Server.

(** ** The specification's wording, for comparison with the code *)

Module Spec.
Import JsString.

(** Section 4.3: base 70, severity adjustment, +10 outside a comment (the line
    is examined after trimming leading white space), -20 in test context,
    clamped to [30, 100]. *)
Definition starts_with_comment_marker (line : string) : bool :=
  let t := trimStart line in
  startsWith t "//" || startsWith t "/*" || startsWith t "#".

Definition mentions_test (line : string) : bool :=
  includes (toLowerCase line) "test" || includes (toLowerCase line) "mock".

Definition score (sev : Client.Severity) (matchedText fullLine : string) : Z :=
  let adj := match sev with
             | Client.CRITICAL => 20
             | Client.HIGH => 15
             | Client.MEDIUM => 10
             | Client.LOW => 0
             end in
  let bonus := if starts_with_comment_marker fullLine then 0 else 10 in
  let penalty := if mentions_test fullLine then 20 else 0 in
  Z.min 100 (Z.max 30 (70 + adj + bonus - penalty)).

(** Section 4.4, step 2: the first white-space-delimited token. *)
Fixpoint until_ws (s : string) : string :=
  match s with
  | EmptyString => EmptyString
  | String c s' => if is_ws c then EmptyString else String c (until_ws s')
  end.

Definition first_token (s : string) : string := until_ws (trimStart s).

(** [p] and [j] overlap when their lines are at most one apart and the first
    token of [p.type] is a prefix of, or equal to, the first token of [j.type],
    case-insensitively. *)
Definition overlap (p j : Client.Vulnerability) : bool :=
  (Z.abs (Client.line p - Client.line j) <=? 1)%Z
  && startsWith (first_token (toLowerCase (Client.type j)))
                (first_token (toLowerCase (Client.type p))).

(** Steps 3 and 4 for one semantic finding [j]: the first pattern finding
    that overlaps is boosted; without one, [j] is appended as hybrid. *)
Definition merge_step (patternFindings : list Client.ref)
    (st : Client.heap * list Client.ref) (j : Client.ref)
  : Client.heap * list Client.ref :=
  let '(h, acc) := st in
  match h !! j with
  | None => st
  | Some jv =>
      match List.find (Client.deref h (fun pv => overlap pv jv)) patternFindings with
      | None => ((h ++ [Client.as_hybrid jv])%list, (acc ++ [length h])%list)
      | Some r =>
          match h !! r with
          | Some pv => (<[r := Client.boost pv jv]> h, acc)
          | None => st
          end
      end
  end.

Definition merge (h : Client.heap) (P S : list Client.ref)
  : Client.heap * list Client.ref :=
  fold_left (merge_step P) S (h, P).

(** Section 4.5: penalty = weight x confidence, score = max(0, maximum - total)
    rounded to one decimal; on a scale with another maximum the weights are
    rescaled in proportion (25, 15, 8, 3 belong to the maximum 100). *)
Fixpoint total_penalty (l : list (Server.Severity * Q)) : Q :=
  match l with
  | [] => 0
  | (sev, c) :: l' => inject_Z (Server.weights sev) * c + total_penalty l'
  end.

Definition round1 (x : Q) : Q := (inject_Z (Qfloor (x * 10 + (1 # 2))) / 10)%Q.


End Spec.

(** ** Auxiliary definitions used by the statements *)

Module Aux.
Import JsString.

(** No character of [p] is white space. *)
Fixpoint no_ws (p : string) : bool :=
  match p with
  | EmptyString => true
  | String c p' => negb (is_ws c) && no_ws p'
  end.

(** The double quote, as a one-character string. *)
Definition dq : string := String (ascii_of_N 34) EmptyString.

End Aux.

Module DetectorAux.
Import JsString Regex Client Aux.

(** No signature of the registry fires on [line]. *)
Definition silent (line : string) : bool :=
  forallb (fun p => match js_match (Pattern.pattern p) line with
                    | [] => true
                    | _ :: _ => false
                    end) VULNERABILITY_PATTERNS.

(** The fragment of scenario A, and the line in which the documentation page
    of the application shows it as its example of an SQL injection. *)
Definition scenario_A_fragment : string :=
  dq ++ "SELECT * FROM users WHERE id = " ++ dq ++ " + userId".

Definition documentation_example : string :=
  "query = " ++ scenario_A_fragment ++ ";".

(** The vulnerable query of the sample file [app.js] that ships with the
    application: here a quote follows the plus sign. *)
Definition bug_report_sample : string :=
  "  const query = 'SELECT * FROM users WHERE email = " ++ dq ++ "' + req.body.email + '"
  ++ dq ++ "';".

(** What scenario A asks of a finding. *)
Definition is_critical (s : Severity) : bool :=
  match s with CRITICAL => true | _ => false end.

Definition is_pattern (d : DetectionMethod) : bool :=
  match d with PATTERN => true | _ => false end.

Definition scenario_A_finding (v : Vulnerability) : bool :=
  is_critical (severity v) && startsWith (type v) "SQL Injection"
  && is_pattern (detectionMethod v) && Qle_bool 90 (confidence v).

End DetectorAux.

Module FusionAux.
Import JsString Client Aux.

(** The fields that fusion never assigns. *)
Definition same_finding (v v' : Vulnerability) : Prop :=
  id v' = id v /\ type v' = type v /\ severity v' = severity v
  /\ line v' = line v /\ column v' = column v /\ message v' = message v.

(** [st'] keeps every reference and every object of [st]. *)
Definition extends (st st' : heap * list ref) : Prop :=
  (exists added, snd st' = (snd st ++ added)%list)
  /\ (forall r v, fst st !! r = Some v ->
                  exists v', fst st' !! r = Some v' /\ same_finding v v').

Definition pattern_finding (ty : string) (ln : Z) (c : Q) (sugg : string) : Vulnerability :=
  {| id := "p"; type := ty; severity := CRITICAL; line := ln; column := 0;
     message := "m"; suggestion := sugg; confidence := c; detectionMethod := PATTERN |}.

Definition ai_finding (ty : string) (ln : Z) (c : Q) (sugg : string) : Vulnerability :=
  {| id := "ai"; type := ty; severity := CRITICAL; line := ln; column := 0;
     message := "m"; suggestion := sugg; confidence := c; detectionMethod := AI |}.

(** Scenario C: the same issue seen by both sources on neighbouring lines. *)
Definition heap_C : heap :=
  [pattern_finding "SQL Injection" 10 90 "Use parameterized queries";
   ai_finding "SQL Injection Risk" 11 80 "Bind the id as a parameter"].

(** A semantic finding whose first word occurs inside the pattern finding's
    type without being its first word. *)
Definition heap_inner_word : heap :=
  [pattern_finding "SQL Injection - String Concatenation" 10 90 "Use parameterized queries";
   ai_finding "Injection through concatenated input" 10 80 "Bind the id as a parameter"].

(** Two pattern findings on one line; the semantic finding agrees with the
    second one only. *)
Definition heap_two_on_a_line : heap :=
  [pattern_finding "XSS - Eval Function" 10 90 "Avoid eval";
   pattern_finding "SQL Injection - String Concatenation" 10 90 "Use parameterized queries";
   ai_finding "SQL Injection" 10 80 "Bind the id as a parameter"].

End FusionAux.

Module ScoreAux.
Import Server.

(** The severity of an unvalidated finding, when it is one of the four. *)
Definition known_severity (s : option string) : option Severity :=
  match s with
  | Some x => parse_severity x
  | None => None
  end.

(** The confidence that enters the penalty in [server/storage.ts]. *)
Definition effective_confidence (v : RawVulnerability) : Q :=
  number_or (raw_confidence v) (8 # 10).

(** Severity and effective confidence of every finding, when every severity
    is known. *)
Fixpoint effective (l : list RawVulnerability) : option (list (Severity * Q)) :=
  match l with
  | [] => Some []
  | v :: l' =>
      match known_severity (raw_severity v), effective l' with
      | Some sev, Some fs => Some ((sev, effective_confidence v) :: fs)
      | _, _ => None
      end
  end.

Fixpoint sum_weights (l : list Gemini.Vulnerability) : Z :=
  match l with
  | [] => 0
  | v :: l' => weights (Gemini.severity v) + sum_weights l'
  end.

Definition raw (sev : option string) (c : option Q) : RawVulnerability :=
  {| raw_type := Some "SQL Injection"; raw_severity := sev; raw_line := Some 3;
     raw_column := None; raw_message := Some "m"; raw_suggestion := Some "s";
     raw_confidence := c |}.

End ScoreAux.

(** ** Further functions of the cited files *)

(** [getVulnerabilityTypeDescription] and [getVulnerabilityTypeSuggestion] of
    [client/src/lib/patternMatching.ts]. *)

Module PatternInfo.
Import JsString Client.

(** [VULNERABILITY_PATTERNS.find(p => p.name === type)] *)
Definition find_by_name (ty : string) : option Pattern.VulnerabilityPattern :=
  List.find (fun p => String.eqb (Pattern.name p) ty) VULNERABILITY_PATTERNS.

(** [x || d] on [pattern?.field]: absent and empty are falsy. *)
Definition or_default (x : option string) (d : string) : string :=
  match x with
  | Some s => if String.eqb s EmptyString then d else s
  | None => d
  end.

Definition getVulnerabilityTypeDescription (ty : string) : string :=
  or_default (option_map Pattern.description (find_by_name ty))
             "Unknown vulnerability type".

Definition getVulnerabilityTypeSuggestion (ty : string) : string :=
  or_default (option_map Pattern.suggestion (find_by_name ty))
             "Review and fix this security issue".

End PatternInfo.

(** [analyzeWithAI] of [client/src/lib/aiAnalysis.ts], as a function of what
    the environment and the network deliver. *)

Module AiClient.
Import JsString Client.

(** One element of [analysisResult.vulnerabilities]. *)
Record AiVulnerability : Type := mkAi {
  ai_type : string;
  ai_severity : Severity;
  ai_line : Z;
  ai_description : string;
  ai_suggestion : string;
  ai_confidence : Q
}.

(** The callback of [analysisResult.vulnerabilities.map((vuln, index) => ...)]. *)
Definition toVulnerability (fileName : string) (index : Z) (vuln : AiVulnerability)
  : Vulnerability :=
  {| id := "ai_" ++ fileName ++ "_" ++ show (ai_line vuln) ++ "_" ++ show index;
     type := ai_type vuln;
     severity := ai_severity vuln;
     line := ai_line vuln;
     column := 0;
     message := ai_description vuln;
     suggestion := ai_suggestion vuln;
     confidence := Qmin 100 (Qmax 0 (ai_confidence vuln));
     detectionMethod := AI |}.

Fixpoint map_indexed (fileName : string) (index : Z) (l : list AiVulnerability)
  : list Vulnerability :=
  match l with
  | [] => []
  | vuln :: l' => toVulnerability fileName index vuln :: map_indexed fileName (index + 1) l'
  end.

(** What happens inside the [try] block: an exception with its message (a
    failed [fetch], a response that is not [ok], empty content, a
    [JSON.parse] error, a missing [vulnerabilities] array), or the parsed
    list. *)
Inductive Attempt : Type :=
| Failed (message : string)
| Parsed (vulnerabilities : list AiVulnerability).

(** [!apiKey] is false: the variable [VITE_OPENAI_API_KEY] is set and not
    empty. *)
Definition configured (apiKey : option string) : bool :=
  match apiKey with
  | Some k => negb (String.eqb k EmptyString)
  | None => false
  end.

Definition analyzeWithAI (apiKey : option string) (fileName : string) (attempt : Attempt)
  : Outcome (list Vulnerability) :=
  if negb (configured apiKey) then Throws "OpenAI API key not available"
  else
    match attempt with
    | Parsed vulnerabilities => Returns (map_indexed fileName 0 vulnerabilities)
    | Failed message =>
        if includes message "API key" then Throws message else Returns []
    end.

End AiClient.

(** The rest of the validation of [analyzeCodeSecurity] in both server
    modules, and their [generateDefaultRecommendations]. *)

Module ServerMore.
Import JsString Server.

Module Storage.

Definition base_recommendations : list string :=
  ["Implement comprehensive input validation for all user inputs";
   "Use parameterized queries to prevent SQL injection attacks";
   "Sanitize and escape output to prevent XSS vulnerabilities";
   "Store sensitive configuration in environment variables";
   "Implement proper error handling without information disclosure";
   "Use HTTPS for all communications";
   "Implement proper authentication and authorization checks";
   "Keep all dependencies up to date";
   "Use static analysis tools in your CI/CD pipeline";
   "Conduct regular security code reviews"].

Definition rec_sql : string :=
  "CRITICAL: Replace string concatenation in SQL queries with parameterized statements".
Definition rec_xss : string :=
  "HIGH: Implement output encoding and Content Security Policy (CSP)".
Definition rec_secrets : string :=
  "HIGH: Remove all hardcoded secrets and use secure secret management".

(** [new Set(vulnerabilities.map(v => v.type.toLowerCase()))]; [None] when
    some [type] is absent, where [toLowerCase] throws a [TypeError]. *)
Fixpoint vulnTypes (vulnerabilities : list RawVulnerability) : option (list string) :=
  match vulnerabilities with
  | [] => Some []
  | v :: l =>
      match raw_type v, vulnTypes l with
      | Some t, Some ts => Some (toLowerCase t :: ts)
      | _, _ => None
      end
  end.

(** [vulnTypes.has(x)] *)
Definition has (types : list string) (x : string) : bool :=
  existsb (String.eqb x) types.

(** [recommendations.unshift(x)] under a condition. *)
Definition unshift_if (b : bool) (x : string) (l : list string) : list string :=
  if b then x :: l else l.

(** The list just before [slice(0, 8)]. *)
Definition recommendations_for (types : list string) : list string :=
  let r := base_recommendations in
  let r := unshift_if (has types "sql injection") rec_sql r in
  let r := unshift_if (has types "xss" || has types "cross-site scripting") rec_xss r in
  let r := unshift_if (has types "hardcoded secrets" || has types "hardcoded credentials")
                      rec_secrets r in
  r.

(** [generateDefaultRecommendations] of [server/storage.ts]; [None] is the
    [TypeError] of a finding without [type]. *)
Definition generateDefaultRecommendations (vulnerabilities : list RawVulnerability)
  : option (list string) :=
  option_map (fun types => firstn 8 (recommendations_for types)) (vulnTypes vulnerabilities).

Record Summary : Type := mkSummary {
  s_critical : nat;
  s_high : nat;
  s_medium : nat;
  s_low : nat
}.

(** [analysis.vulnerabilities.filter(v => v.severity === name).length] *)
Definition count_named (name : string) (l : list RawVulnerability) : nat :=
  length (List.filter (fun v => match raw_severity v with
                                | Some s => String.eqb s name
                                | None => false
                                end) l).

Record SecurityAnalysis : Type := mkAnalysis {
  vulnerabilities : list RawVulnerability;
  securityScore : option Q;
  summary : Summary;
  recommendations : list string
}.

(** The parsed response: every field may be absent or of the wrong kind. *)
Record Response : Type := mkResponse {
  r_vulnerabilities : option (list RawVulnerability);
  r_securityScore : option Q;
  r_summary : option Summary;
  r_recommendations : option (list string)
}.

(** [typeof s !== 'number' || s < 0 || s > 10] *)
Definition score_invalid (s : option Q) : bool :=
  match s with
  | Some q => negb (Qle_bool 0 q) || negb (Qle_bool q 10)
  | None => true
  end.

(** The validation block of [analyzeCodeSecurity]; a score of [None] is NaN,
    a result of [None] is the [null] returned from the [catch] block. *)
Definition validate (r : Response) : option SecurityAnalysis :=
  let vulns := match r_vulnerabilities r with Some l => l | None => [] end in
  let score := if score_invalid (r_securityScore r)
               then Server.Storage.calculateFallbackScore vulns
               else r_securityScore r in
  let summ := match r_summary r with
              | Some s => s
              | None => {| s_critical := count_named "critical" vulns;
                           s_high := count_named "high" vulns;
                           s_medium := count_named "medium" vulns;
                           s_low := count_named "low" vulns |}
              end in
  match r_recommendations r with
  | Some recs => Some {| vulnerabilities := vulns; securityScore := score;
                         summary := summ; recommendations := recs |}
  | None =>
      match generateDefaultRecommendations vulns with
      | Some recs => Some {| vulnerabilities := vulns; securityScore := score;
                             summary := summ; recommendations := recs |}
      | None => None
      end
  end.

End Storage.

Module Gemini.

Definition base_recommendations : list string :=
  ["Implement regular security code reviews";
   "Use automated security scanning tools";
   "Follow secure coding best practices";
   "Keep dependencies up to date"].

Definition rec_sql : string := "Use parameterized queries to prevent SQL injection".
Definition rec_xss : string := "Sanitize and validate all user inputs".
Definition rec_secret : string := "Use environment variables for sensitive data".

(** [vulnerabilities.some(v => v.type.toLowerCase().includes(word))] *)
Definition mentions (word : string) (l : list Server.Gemini.Vulnerability) : bool :=
  existsb (fun v => includes (toLowerCase (Server.Gemini.type v)) word) l.

(** [recommendations.push(x)] under a condition. *)
Definition push_if (b : bool) (x : string) (l : list string) : list string :=
  if b then (l ++ [x])%list else l.

Definition generateDefaultRecommendations (l : list Server.Gemini.Vulnerability)
  : list string :=
  let r := base_recommendations in
  let r := push_if (mentions "sql" l) rec_sql r in
  let r := push_if (mentions "xss" l) rec_xss r in
  let r := push_if (mentions "secret" l) rec_secret r in
  r.

(** [Array.isArray(analysis.recommendations) ? analysis.recommendations
     : generateDefaultRecommendations(vulnerabilities)] *)
Definition recommendations (given : option (list string))
    (l : list Server.Gemini.Vulnerability) : list string :=
  match given with
  | Some recs => recs
  | None => generateDefaultRecommendations l
  end.

End Gemini.

End ServerMore.

(** ** Auxiliary definitions for the further properties *)

Module MatcherAux.
Import JsString Client.

(** [s] has no occurrence of the character [c]. *)
Fixpoint lacks (c : ascii) (s : string) : bool :=
  match s with
  | EmptyString => true
  | String x s' => negb (Ascii.eqb x c) && lacks c s'
  end.

(** Every character of [s] is white space. *)
Fixpoint all_ws (s : string) : bool :=
  match s with
  | EmptyString => true
  | String x s' => is_ws x && all_ws s'
  end.

(** A finding without its id, with the line number moved by [k]. *)
Definition located (k : Z) (v : Vulnerability)
  : string * Severity * Z * Z * string * string * Q * DetectionMethod :=
  (type v, severity v, line v + k, column v, message v, suggestion v, confidence v,
   detectionMethod v).

Definition not_low (s : Severity) : bool :=
  match s with LOW => false | _ => true end.

End MatcherAux.

Module FusionMoreAux.
Import JsString Client FusionAux.

(** A confidence on the scale of the client. *)
Definition conf_ok (v : Vulnerability) : Prop :=
  (0 <= confidence v <= 100)%Q.

(** [j] refers to a finding that overlaps no finding of [P] in the heap [h]. *)
Definition novel (h : heap) (P : list ref) (j : ref) : bool :=
  match h !! j with
  | Some jv => negb (existsb (deref h (fun pv => overlaps pv jv)) P)
  | None => false
  end.

(** All references of [l] point into [h]. *)
Definition in_heap (h : heap) (l : list ref) : Prop :=
  Forall (fun r => (r < length h)%nat) l.

(** Confidences stay on the scale and never go down. *)
Definition conf_kept (st st' : heap * list ref) : Prop :=
  Forall conf_ok (fst st) ->
  Forall conf_ok (fst st')
  /\ (forall r v, fst st !! r = Some v ->
        exists v', fst st' !! r = Some v' /\ (confidence v <= confidence v')%Q).

(** Whatever is new or different in [st'] is tagged hybrid. *)
Definition changes_hybrid (st st' : heap * list ref) : Prop :=
  forall r v', fst st' !! r = Some v' ->
               fst st !! r = Some v' \/ detectionMethod v' = HYBRID.

(** Objects outside [P] are as they were. *)
Definition outside_kept (P : list ref) (st st' : heap * list ref) : Prop :=
  (length (fst st) <= length (fst st'))%nat
  /\ (forall r, ~ In r P -> (r < length (fst st))%nat -> fst st' !! r = fst st !! r).

End FusionMoreAux.

Module FusionCountAux.
Import JsString Client FusionAux.

(** Every object of [h] is still in [h'], up to the assigned fields. *)
Definition tracks (h h' : heap) : Prop :=
  forall (r : ref) v, h !! r = Some v -> exists v', h' !! r = Some v' /\ same_finding v v'.

(** The references appended between [st] and [st'] are exactly the objects
    allocated in between. *)
Definition appends_fresh (st st' : heap * list ref) : Prop :=
  (length (fst st) <= length (fst st'))%nat
  /\ exists added, snd st' = (snd st ++ added)%list
                   /\ Forall (fun r => (length (fst st) <= r < length (fst st'))%nat) added.

(** A semantic finding whose type is empty, and one whose type starts with a
    space. *)
Definition heap_blank : heap :=
  [pattern_finding "XSS - Eval Function" 10 90 "Avoid eval";
   ai_finding " Weak randomness" 11 80 "Use a CSPRNG"].

End FusionCountAux.

Module IdAux.
Import JsString.

(** The inverse of [split]. *)
Fixpoint join (sep : ascii) (l : list string) : string :=
  match l with
  | [] => EmptyString
  | [x] => x
  | x :: l' => x ++ String sep (join sep l')
  end.

End IdAux.

Module PipelineAux.
Import JsString Client AiClient.

(** The heap and the two reference lists a caller holds after running the
    matcher and converting the reviewer's answer. *)
Definition scan_heap (code fileName : string) (l : list AiVulnerability) : heap :=
  (detectPatterns code fileName ++ map_indexed fileName 0 l)%list.

Definition pattern_refs (code fileName : string) : list ref :=
  seq 0 (length (detectPatterns code fileName)).

Definition ai_refs (code fileName : string) (l : list AiVulnerability) : list ref :=
  seq (length (detectPatterns code fileName)) (length l).

(** [combineAnalysisResults(detectPatterns(code, fileName), aiResults)] *)
Definition hybrid_scan (code fileName : string) (l : list AiVulnerability)
  : heap * list ref :=
  combineAnalysisResults (scan_heap code fileName l) (pattern_refs code fileName)
                         (ai_refs code fileName l).

Definition sample_answer : list AiVulnerability :=
  [mkAi "XSS risk" HIGH 1 "reflected input" "encode the output" 250;
   mkAi "Weak randomness" LOW 7 "Math.random used for a token" "use a CSPRNG" (-3)].

End PipelineAux.

Module ServerMoreAux.
Import Server ScoreAux.

(** Sum of the four counters of a Gemini summary. *)
Definition summary_total (s : Gemini.Summary) : nat :=
  (Gemini.n_critical s + Gemini.n_high s + Gemini.n_medium s + Gemini.n_low s)%nat.



End ServerMoreAux.

Module StorageScoreAux.
Import Server ScoreAux.

(** No confidence that enters the penalty is negative. *)
Definition nonneg_confidences (fs : list (Severity * Q)) : Prop :=
  Forall (fun f => (0 <= snd f)%Q) fs.

(** The score of [server/storage.ts] in closed form. *)
Definition storage_score (fs : list (Severity * Q)) : Q :=
  Spec.round1 (Qmax 0 (10 - Spec.total_penalty fs / 10)).

End StorageScoreAux.

Module RecommendationAux.
Import Server ServerMore.

(** Membership of a text in a list, as a computation. *)
Definition listed (x : string) (l : list string) : bool := existsb (String.eqb x) l.

(** The list of [server/storage.ts] from the three conditions. *)
Definition storage_list (sql xss secrets : bool) : list string :=
  firstn 8 (Storage.unshift_if secrets Storage.rec_secrets
              (Storage.unshift_if xss Storage.rec_xss
                 (Storage.unshift_if sql Storage.rec_sql Storage.base_recommendations))).

Definition b2n (b : bool) : nat := if b then 1%nat else 0%nat.

Definition typed (ty : string) : RawVulnerability :=
  {| raw_type := Some ty; raw_severity := Some "high"; raw_line := Some 1;
     raw_column := None; raw_message := None; raw_suggestion := None;
     raw_confidence := None |}.


End RecommendationAux.

Module StorageValidateAux.
Import Server ScoreAux ServerMore.

Definition has_known_severity (v : RawVulnerability) : bool :=
  match known_severity (raw_severity v) with Some _ => true | None => false end.

Definition summary_total (s : Storage.Summary) : nat :=
  (Storage.s_critical s + Storage.s_high s + Storage.s_medium s + Storage.s_low s)%nat.

Definition response (vulns : list RawVulnerability) (score : option Q)
    (recs : option (list string)) : Storage.Response :=
  {| Storage.r_vulnerabilities := Some vulns; Storage.r_securityScore := score;
     Storage.r_summary := None; Storage.r_recommendations := recs |}.

End StorageValidateAux.

(** * Properties *)

(** ** Confidence scorer *)

Section ConfidenceScorer.
Import JsString Client Aux.

(** Stripping trailing white space does not change whether a string starts
    with a marker that has no white space in it. *)
Lemma startsWith_trimEnd (p : string) :
  no_ws p = true -> forall t, startsWith (trimEnd t) p = startsWith t p.
Proof.
  induction p as [|a p IH]; intros Hp t.
  - destruct t as [|c t]; simpl; [reflexivity|].
    destruct (trimEnd t); [destruct (is_ws c)|]; reflexivity.
  - simpl in Hp. apply andb_prop in Hp as [Ha Hp]. specialize (IH Hp).
    destruct t as [|c t]; [reflexivity|]. simpl.
    destruct (trimEnd t) as [|c' r] eqn:E.
    + destruct (is_ws c) eqn:Hc.
      * simpl. destruct (Ascii.eqb_spec a c) as [->|]; [|reflexivity].
        rewrite Hc in Ha. discriminate.
      * simpl. f_equal. rewrite <- (IH t), E. reflexivity.
    + simpl. f_equal. rewrite <- (IH t), E. reflexivity.
Qed.

Lemma startsWith_trim (p line : string) :
  no_ws p = true -> startsWith (trim line) p = startsWith (trimStart line) p.
Proof. intros Hp. unfold trim. apply startsWith_trimEnd, Hp. Qed.

Lemma is_comment_line_spec (line : string) :
  is_comment_line line = Spec.starts_with_comment_marker line.
Proof.
  unfold is_comment_line, Spec.starts_with_comment_marker.
  rewrite !startsWith_trim by reflexivity. reflexivity.
Qed.

Lemma raw_confidence_bounds (sev : Severity) (line : string) :
  50 <= raw_confidence sev line <= 100.
Proof.
  unfold raw_confidence.
  destruct sev, (is_comment_line line), (looks_like_test line); simpl; lia.
Qed.

(** C4. The confidence scorer returns, clamped to [30, 100], the sum of 70,
    the severity adjustment (20 critical, 15 high, 10 medium, 0 low), 10 when
    the line with leading white space removed does not start with one of the
    comment markers, and -20 when the lower-cased line contains test or mock;
    the result lies in [30, 100]. *)
Theorem C4_calculateConfidence_spec
    (pattern : Pattern.VulnerabilityPattern) (matched line : string) :
  calculateConfidence pattern matched line
    = Spec.score (Pattern.severity pattern) matched line
  /\ 30 <= calculateConfidence pattern matched line <= 100.
Proof.
  split.
  - unfold calculateConfidence, raw_confidence, Spec.score.
    rewrite is_comment_line_spec. unfold looks_like_test, Spec.mentions_test.
    destruct (Pattern.severity pattern), (Spec.starts_with_comment_marker line),
      (includes (toLowerCase line) "test" || includes (toLowerCase line) "mock");
      reflexivity.
  - unfold calculateConfidence. lia.
Qed.

(** C9. Every value of the confidence scorer lies in [50, 100]: the value
    before the clamp is at least 70 + 0 + 0 - 20 = 50, so the lower clamp at 30
    never changes it. *)
Theorem C9_confidence_at_least_50
    (pattern : Pattern.VulnerabilityPattern) (matched line : string) :
  50 <= calculateConfidence pattern matched line <= 100
  /\ Z.max 30 (raw_confidence (Pattern.severity pattern) line)
     = raw_confidence (Pattern.severity pattern) line.
Proof.
  pose proof (raw_confidence_bounds (Pattern.severity pattern) line) as H.
  unfold calculateConfidence. lia.
Qed.

End ConfidenceScorer.

(** ** Pattern matcher *)

Section Detector.
Import JsString Regex Client Aux DetectorAux.

Lemma flat_map_nil {A B : Type} (f : A -> list B) (l : list A) :
  (forall x, In x l -> f x = []) -> flat_map f l = [].
Proof.
  induction l as [|x l IH]; intros H; simpl; [reflexivity|].
  rewrite (H x) by (left; reflexivity). apply IH. intros y Hy. apply H. right. exact Hy.
Qed.

Lemma silent_scan_line (fileName line : string) (lineIndex : Z) :
  silent line = true -> scan_line (applicablePatterns fileName) lineIndex line = [].
Proof.
  intros H. unfold silent in H. rewrite forallb_forall in H.
  apply flat_map_nil. intros p Hp. unfold applicablePatterns in Hp.
  apply filter_In in Hp as [Hp _]. specialize (H p Hp). unfold findings_of.
  destruct (js_match (Pattern.pattern p) line); [reflexivity|discriminate].
Qed.

Lemma silent_scan_lines (fileName : string) (lines : list string) :
  forallb silent lines = true ->
  forall lineIndex, scan_lines (applicablePatterns fileName) lineIndex lines = [].
Proof.
  induction lines as [|line lines IH]; intros H lineIndex; simpl; [reflexivity|].
  simpl in H. apply andb_prop in H as [H1 H2].
  rewrite silent_scan_line by exact H1. rewrite IH by exact H2. reflexivity.
Qed.

(** C2, evaluated on the code.  On the line of scenario A, alone or as the
    assignment shown on the documentation page, no signature of the registry
    fires, whatever the file name: the result is the empty list, and so it has
    no finding of the kind the scenario asks for.  The pattern of
    [sql_injection_1] wants a quote character after the plus sign. *)
Theorem C2_scenario_A_not_detected (fileName : string) :
  detectPatterns scenario_A_fragment fileName = []
  /\ detectPatterns documentation_example fileName = []
  /\ existsb scenario_A_finding (detectPatterns documentation_example "app.js") = false
  /\ looks_like_test documentation_example = false.
Proof.
  assert (H1 : detectPatterns scenario_A_fragment fileName = []).
  { unfold detectPatterns. apply silent_scan_lines. vm_compute. reflexivity. }
  assert (H2 : detectPatterns documentation_example fileName = []).
  { unfold detectPatterns. apply silent_scan_lines. vm_compute. reflexivity. }
  split; [exact H1|]. split; [exact H2|]. split.
  - vm_compute. reflexivity.
  - vm_compute. reflexivity.
Qed.

(** The same signature does fire when a quote follows the plus sign. *)
Lemma sql_injection_detected_with_trailing_quote :
  map (fun v => (id v, type v, confidence v)) (detectPatterns bug_report_sample "routes.js")
  = [("sql_injection_1_0_17", "SQL Injection - String Concatenation", inject_Z 100);
     ("input_1_0_56", "Missing Input Validation", inject_Z 90)]
  /\ existsb scenario_A_finding (detectPatterns bug_report_sample "routes.js") = true.
Proof. split; vm_compute; reflexivity. Qed.

(** Every finding of the matcher carries a confidence in [50, 100] and the
    method pattern. *)
Lemma detectPatterns_findings (code fileName : string) :
  Forall (fun v => (inject_Z 50 <= confidence v <= inject_Z 100)%Q
                   /\ detectionMethod v = PATTERN)
         (detectPatterns code fileName).
Proof.
  unfold detectPatterns. generalize 0.
  induction (split (ascii_of_N 10) code) as [|line lines IH]; intros z; simpl;
    [constructor|].
  apply Forall_app. split; [|apply IH].
  unfold scan_line. apply Forall_forall. intros v Hv. apply list_elem_of_In in Hv.
  apply in_flat_map in Hv as [p [_ Hv]]. unfold findings_of in Hv.
  apply in_map_iff in Hv as [m [<- _]]. simpl. split; [|reflexivity].
  pose proof (raw_confidence_bounds (Pattern.severity p) line) as H.
  unfold calculateConfidence. rewrite <- !Zle_Qle. lia.
Qed.

(** C6, amended.  Called with strings, the matcher returns its finding list
    and does not throw; on the empty source text the list is empty.  A value
    that is not a string is excluded by the signature. *)
Theorem C6_detect_total_on_strings (code fileName : string) :
  detectPatterns_untyped (JsString code) (JsString fileName)
    = Returns (detectPatterns code fileName)
  /\ detectPatterns EmptyString fileName = [].
Proof.
  split; [reflexivity|].
  unfold detectPatterns. apply silent_scan_lines. vm_compute. reflexivity.
Qed.

(** C6 as stated fails: with an absent source text the call throws instead of
    returning the empty list. *)
Lemma C6_absent_source_throws :
  detectPatterns_untyped JsUndefined (JsString "app.js") = Throws "TypeError"
  /\ detectPatterns_untyped JsUndefined (JsString "app.js") <> Returns [].
Proof. split; [reflexivity|discriminate]. Qed.

End Detector.

Section RepeatedMatches.
Import JsString Regex Client Aux.

Lemma startsWith_take (n : nat) (s : string) : startsWith s (take n s) = true.
Proof.
  revert s. induction n as [|n IH]; intros [|c s]; simpl; try reflexivity.
  rewrite Ascii.eqb_refl. apply IH.
Qed.

(** Every entry of [scan] is a substring of the input at the recorded index. *)
Lemma scan_occurs (r : re) (s : string) :
  forall prev pos skip a m,
    In (a, m) (scan r prev pos s skip) ->
    exists k, a = (pos + k)%nat /\ startsWith (drop k s) m = true.
Proof.
  induction s as [|c s IH]; intros prev pos skip a m H.
  - destruct skip; simpl in H; [|contradiction].
    destruct (exec_here r prev EmptyString); simpl in H; [|contradiction].
    destruct H as [H|[]]. inversion H; subst. exists O. split; [lia|reflexivity].
  - destruct skip as [|n]; simpl in H.
    + destruct (exec_here r prev (String c s)) as [rest|].
      * destruct H as [H|H].
        -- inversion H; subst. exists O. split; [lia|]. apply startsWith_take.
        -- apply IH in H as [k [-> Hk]]. exists (S k). split; [lia|exact Hk].
      * apply IH in H as [k [-> Hk]]. exists (S k). split; [lia|exact Hk].
    + apply IH in H as [k [-> Hk]]. exists (S k). split; [lia|exact Hk].
Qed.

Lemma match_positions_occurs (r : re) (line : string) (a : nat) (m : string) :
  In (a, m) (match_positions r line) -> startsWith (drop a line) m = true.
Proof.
  intros H. apply scan_occurs in H as [k [-> Hk]]. exact Hk.
Qed.

(** [indexOf] returns the first index at which the substring occurs. *)
Lemma indexOf_from_first (sub : string) (k : nat) :
  forall s i, startsWith (drop k s) sub = true ->
              i <= indexOf_from i s sub <= i + Z.of_nat k.
Proof.
  induction k as [|k IH]; intros s i H.
  - destruct s; cbn [drop] in H; cbn [indexOf_from]; rewrite H; lia.
  - destruct s as [|c s].
    + cbn [drop] in H. cbn [indexOf_from]. rewrite H. lia.
    + cbn [drop] in H. cbn [indexOf_from].
      destruct (startsWith (String c s) sub); [lia|].
      specialize (IH s (i + 1) H). lia.
Qed.

Lemma indexOf_first (line sub : string) (k : nat) :
  startsWith (drop k line) sub = true -> 0 <= indexOf line sub <= Z.of_nat k.
Proof. intros H. apply (indexOf_from_first sub k line 0) in H. unfold indexOf. lia. Qed.

Lemma lookup_map {A B : Type} (f : A -> B) (l : list A) (i : nat) :
  map f l !! i = option_map f (l !! i).
Proof.
  revert i. induction l as [|x l IH]; intros [|i]; simpl; try reflexivity. apply IH.
Qed.

Lemma scan_line_segment (patterns : list Pattern.VulnerabilityPattern)
    (pattern : Pattern.VulnerabilityPattern) (z : Z) (line : string) :
  In pattern patterns ->
  exists pre post,
    scan_line patterns z line = (pre ++ findings_of pattern z line ++ post)%list.
Proof.
  intros H. apply in_split in H as [l1 [l2 ->]]. unfold scan_line.
  rewrite flat_map_app. simpl. eauto.
Qed.

Lemma scan_lines_segment (patterns : list Pattern.VulnerabilityPattern)
    (lines : list string) :
  forall (n : nat) (line : string) (z : Z),
    lines !! n = Some line ->
    exists pre post,
      scan_lines patterns z lines
        = (pre ++ scan_line patterns (z + Z.of_nat n) line ++ post)%list.
Proof.
  induction lines as [|l lines IH]; intros n line z H; [destruct n; discriminate|].
  destruct n as [|n]; simpl in H.
  - inversion H; subst. exists [], (scan_lines patterns (z + 1) lines).
    cbn [scan_lines app Z.of_nat]. rewrite Z.add_0_r. reflexivity.
  - destruct (IH n line (z + 1) H) as [pre [post E]].
    exists (scan_line patterns z l ++ pre)%list, post. cbn [scan_lines]. rewrite E.
    replace (z + Z.of_nat (S n)) with (z + 1 + Z.of_nat n) by lia.
    rewrite <- app_assoc. reflexivity.
Qed.

(** The findings of one signature on one line are a segment of the result. *)
Lemma detectPatterns_segment (code fileName line : string) (n : nat)
    (pattern : Pattern.VulnerabilityPattern) :
  split (ascii_of_N 10) code !! n = Some line ->
  In pattern (applicablePatterns fileName) ->
  exists pre post,
    detectPatterns code fileName
      = (pre ++ findings_of pattern (Z.of_nat n) line ++ post)%list.
Proof.
  intros Hl Hp. unfold detectPatterns.
  destruct (scan_lines_segment (applicablePatterns fileName) _ n line 0 Hl) as [p1 [q1 E1]].
  destruct (scan_line_segment _ pattern (0 + Z.of_nat n) line Hp) as [p2 [q2 E2]].
  rewrite E1, E2. exists (p1 ++ p2)%list, (q2 ++ q1)%list.
  rewrite <- !app_assoc. reflexivity.
Qed.

Lemma findings_of_lookup (pattern : Pattern.VulnerabilityPattern) (z : Z)
    (line : string) (i a : nat) (m : string) :
  match_positions (Pattern.pattern pattern) line !! i = Some (a, m) ->
  findings_of pattern z line !! i = Some (finding pattern z line m).
Proof.
  intros H. unfold findings_of, js_match. rewrite !lookup_map, H. reflexivity.
Qed.

(** C10. When the pattern of an applicable signature matches the same
    substring [m] at two distinct positions [a] and [b] of one line, the
    result holds two findings, at two distinct indices, whose column is the
    index of the first occurrence of [m] in the line (at most [a] and at most
    [b], so not both positions are reported), and whose ids are equal. *)
Theorem C10_repeated_match_same_id
    (code fileName line m : string) (n i j a b : nat)
    (pattern : Pattern.VulnerabilityPattern) :
  split (ascii_of_N 10) code !! n = Some line ->
  In pattern (applicablePatterns fileName) ->
  match_positions (Pattern.pattern pattern) line !! i = Some (a, m) ->
  match_positions (Pattern.pattern pattern) line !! j = Some (b, m) ->
  a <> b ->
  exists (k1 k2 : nat) (v1 v2 : Vulnerability),
    k1 <> k2
    /\ detectPatterns code fileName !! k1 = Some v1
    /\ detectPatterns code fileName !! k2 = Some v2
    /\ column v1 = indexOf line m /\ column v2 = indexOf line m
    /\ 0 <= indexOf line m <= Z.of_nat a /\ indexOf line m <= Z.of_nat b
    /\ id v1 = id v2
    /\ id v1 = (Pattern.id pattern ++ "_" ++ show (Z.of_nat n) ++ "_"
                ++ show (indexOf line m))%string.
Proof.
  intros Hl Hp Hi Hj Hab.
  destruct (detectPatterns_segment code fileName line n pattern Hl Hp) as [pre [post E]].
  pose proof (findings_of_lookup pattern (Z.of_nat n) line i a m Hi) as Fi.
  pose proof (findings_of_lookup pattern (Z.of_nat n) line j b m Hj) as Fj.
  assert (Ha : startsWith (drop a line) m = true).
  { apply match_positions_occurs with (r := Pattern.pattern pattern).
    apply list_elem_of_In, list_elem_of_lookup. eauto. }
  assert (Hb : startsWith (drop b line) m = true).
  { apply match_positions_occurs with (r := Pattern.pattern pattern).
    apply list_elem_of_In, list_elem_of_lookup. eauto. }
  pose proof (indexOf_first line m a Ha) as Ia.
  pose proof (indexOf_first line m b Hb) as Ib.
  exists (length pre + i)%nat, (length pre + j)%nat,
    (finding pattern (Z.of_nat n) line m), (finding pattern (Z.of_nat n) line m).
  split.
  { intros Heq. assert (i = j) by lia. subst j. rewrite Hi in Hj. congruence. }
  rewrite E.
  split. { rewrite lookup_app_r by lia. replace (length pre + i - length pre)%nat with i by lia.
           apply lookup_app_l_Some, Fi. }
  split. { rewrite lookup_app_r by lia. replace (length pre + j - length pre)%nat with j by lia.
           apply lookup_app_l_Some, Fj. }
  simpl. repeat split; lia.
Qed.

(** C10 on a concrete line: two calls of [eval] at columns 0 and 10. *)
Lemma C10_repeated_match_witness :
  exists (k1 k2 : nat) (v1 v2 : Vulnerability),
    k1 <> k2
    /\ detectPatterns "eval(a) + eval(b)" "app.js" !! k1 = Some v1
    /\ detectPatterns "eval(a) + eval(b)" "app.js" !! k2 = Some v2
    /\ column v1 = indexOf "eval(a) + eval(b)" "eval("
    /\ column v2 = indexOf "eval(a) + eval(b)" "eval("
    /\ 0 <= indexOf "eval(a) + eval(b)" "eval(" <= Z.of_nat 0
    /\ indexOf "eval(a) + eval(b)" "eval(" <= Z.of_nat 10
    /\ id v1 = id v2
    /\ id v1 = (Pattern.id xss_3 ++ "_" ++ show (Z.of_nat 0) ++ "_"
                ++ show (indexOf "eval(a) + eval(b)" "eval("))%string.
Proof.
  apply (C10_repeated_match_same_id "eval(a) + eval(b)" "app.js" "eval(a) + eval(b)"
           "eval(" 0 0 1 0 10 xss_3).
  - reflexivity.
  - unfold applicablePatterns. apply filter_In. split; [|reflexivity].
    unfold VULNERABILITY_PATTERNS. do 5 right. left. reflexivity.
  - vm_compute. reflexivity.
  - vm_compute. reflexivity.
  - lia.
Defined.

End RepeatedMatches.

(** ** Result fusion *)

Section Fusion.
Import JsString Client Aux FusionAux.

Lemma same_finding_refl (v : Vulnerability) : same_finding v v.
Proof. unfold same_finding. tauto. Qed.

Lemma same_finding_trans (u v w : Vulnerability) :
  same_finding u v -> same_finding v w -> same_finding u w.
Proof. unfold same_finding. intuition congruence. Qed.

Lemma same_finding_boost (pv aiVuln : Vulnerability) : same_finding pv (boost pv aiVuln).
Proof. unfold same_finding. simpl. tauto. Qed.

Lemma extends_refl (st : heap * list ref) : extends st st.
Proof.
  split.
  - exists []. symmetry. apply app_nil_r.
  - intros r v H. exists v. split; [exact H|apply same_finding_refl].
Qed.

Lemma extends_trans (a b c : heap * list ref) :
  extends a b -> extends b c -> extends a c.
Proof.
  intros [[x Hx] Hab] [[y Hy] Hbc]. split.
  - exists (x ++ y)%list. rewrite Hy, Hx. symmetry. apply app_assoc.
  - intros r v H. destruct (Hab r v H) as [v1 [H1 S1]].
    destruct (Hbc r v1 H1) as [v2 [H2 S2]].
    exists v2. split; [exact H2|]. eapply same_finding_trans; eassumption.
Qed.

Lemma merge_step_extends (P : list ref) (st : heap * list ref) (a : ref) :
  extends st (merge_step P st a).
Proof.
  destruct st as [h combined]. unfold merge_step.
  destruct (h !! a) as [aiVuln|] eqn:Ha; [|apply extends_refl].
  destruct (negb _).
  - split; simpl.
    + eauto.
    + intros r v H. exists v. split; [|apply same_finding_refl].
      apply lookup_app_l_Some, H.
  - destruct (List.find _ P) as [r|]; [|apply extends_refl].
    destruct (h !! r) as [pv|] eqn:Hr; [|apply extends_refl].
    split; simpl.
    + exists []. symmetry. apply app_nil_r.
    + intros r' v H. simpl in H. destruct (Nat.eq_dec r r') as [<-|Hne].
      * exists (boost pv aiVuln). split.
        -- apply list_lookup_insert_eq. eapply lookup_lt_Some; eassumption.
        -- pose proof (eq_trans (eq_sym Hr) H) as E. inversion E; subst.
           apply same_finding_boost.
      * exists v. split; [|apply same_finding_refl].
        simpl. etransitivity; [apply list_lookup_insert_ne; exact Hne|exact H].
Qed.

Lemma fold_merge_extends (P S : list ref) :
  forall st, extends st (fold_left (merge_step P) S st).
Proof.
  induction S as [|a S IH]; intros st; simpl; [apply extends_refl|].
  eapply extends_trans; [apply merge_step_extends|apply IH].
Qed.

Lemma combine_snoc (h : heap) (P S : list ref) (j : ref) :
  combineAnalysisResults h P (S ++ [j])
  = merge_step P (combineAnalysisResults h P S) j.
Proof. unfold combineAnalysisResults. apply fold_left_app. Qed.

(** The two tests read fields that fusion never assigns, so their value on a
    pattern finding is the same before and after any number of steps. *)
Lemma tests_stable (pv pv' aiVuln : Vulnerability) :
  same_finding pv pv' ->
  overlaps pv' aiVuln = overlaps pv aiVuln /\ near pv' aiVuln = near pv aiVuln.
Proof.
  intros [_ [Ht [_ [Hl _]]]]. unfold overlaps, near. rewrite Ht, Hl. split; reflexivity.
Qed.

(** The test given to [some], written out. *)
Lemma overlaps_unfold (pv aiVuln : Vulnerability) :
  overlaps pv aiVuln
  = (Z.abs (line pv - line aiVuln) <=? 1)%Z
    && includes (toLowerCase (type pv))
                (hd EmptyString (split " " (toLowerCase (type aiVuln)))).
Proof. reflexivity. Qed.

Lemma find_some_existsb {A : Type} (f : A -> bool) (l : list A) (x : A) :
  List.find f l = Some x -> existsb f l = true.
Proof.
  intros H. apply find_some in H as [H1 H2]. apply existsb_exists. eauto.
Qed.

(** C1, amended.  The semantic findings are processed in input order: the
    result for [S ++ [j]] is obtained from the result for [S] by one step on
    [j].  Here [j] overlaps a pattern finding [p] when their lines are at most
    one apart and the lower-cased [p.type] contains the part of the
    lower-cased [j.type] before its first space.  Without an overlap a copy of
    [j] is appended with method hybrid and confidence min(c + 10, 100).  With
    one, and when the first pattern finding within one line of [j] is the
    first that overlaps it, that finding is updated in place: confidence
    min(c + 15, 100), method hybrid, and [j.suggestion] appended after
    [" AI suggests: "] when it is non-empty and differs. *)
Theorem C1_merge_step_by_step
    (h : heap) (P S : list ref) (j : ref) (h' : heap) (acc : list ref)
    (jv : Vulnerability) :
  combineAnalysisResults h P S = (h', acc) ->
  h' !! j = Some jv ->
  (existsb (deref h' (fun pv => overlaps pv jv)) P = false ->
   combineAnalysisResults h P (S ++ [j])
     = ((h' ++ [as_hybrid jv])%list, (acc ++ [length h'])%list)
   /\ detectionMethod (as_hybrid jv) = HYBRID
   /\ confidence (as_hybrid jv) = Qmin (confidence jv + 10) 100)
  /\ (forall (r : ref) (pv : Vulnerability),
        List.find (deref h' (fun pv => overlaps pv jv)) P = Some r ->
        List.find (deref h' (fun pv => near pv jv)) P = Some r ->
        h' !! r = Some pv ->
        combineAnalysisResults h P (S ++ [j]) = (<[r := boost pv jv]> h', acc)
        /\ confidence (boost pv jv) = Qmin (confidence pv + 15) 100
        /\ detectionMethod (boost pv jv) = HYBRID
        /\ suggestion (boost pv jv)
           = if negb (String.eqb (suggestion jv) EmptyString)
                && negb (String.eqb (suggestion jv) (suggestion pv))
             then (suggestion pv ++ " AI suggests: " ++ suggestion jv)%string
             else suggestion pv).
Proof.
  intros Hst Hj. split.
  - intros Hno. rewrite combine_snoc, Hst. unfold merge_step.
    rewrite Hj, Hno. simpl. auto.
  - intros r pv Hov Hnear Hr. rewrite combine_snoc, Hst. unfold merge_step.
    rewrite Hj, (find_some_existsb _ _ _ Hov), Hnear, Hr. simpl. auto.
Qed.

(** Scenario C as an instance of C1: the pattern finding at line 10 is
    boosted by the semantic finding at line 11 and nothing is appended. *)
Lemma C1_merge_step_witness :
  combineAnalysisResults heap_C [0%nat] ([] ++ [1%nat])
  = (<[0%nat := boost (pattern_finding "SQL Injection" 10 90 "Use parameterized queries")
                      (ai_finding "SQL Injection Risk" 11 80 "Bind the id as a parameter")]>
       heap_C, [0%nat])
  /\ combineAnalysisResults heap_C [] ([] ++ [1%nat])
     = ((heap_C ++ [as_hybrid (ai_finding "SQL Injection Risk" 11 80
                                 "Bind the id as a parameter")])%list,
        ([] ++ [length heap_C])%list).
Proof.
  split.
  - destruct (C1_merge_step_by_step heap_C [0%nat] [] 1%nat heap_C [0%nat]
                (ai_finding "SQL Injection Risk" 11 80 "Bind the id as a parameter")
                eq_refl eq_refl) as [_ H].
    apply (H 0%nat (pattern_finding "SQL Injection" 10 90 "Use parameterized queries"));
      reflexivity.
  - destruct (C1_merge_step_by_step heap_C [] [] 1%nat heap_C []
                (ai_finding "SQL Injection Risk" 11 80 "Bind the id as a parameter")
                eq_refl eq_refl) as [H _].
    apply H. reflexivity.
Defined.

(** C1 as stated fails: the first word of the semantic finding's type occurs
    inside the pattern finding's type, so the code boosts the pattern finding,
    while the first tokens of the two types differ, so the stated rule appends
    the semantic finding. *)
Lemma C1_inner_word_counterexample :
  combineAnalysisResults heap_inner_word [0%nat] [1%nat]
  <> Spec.merge heap_inner_word [0%nat] [1%nat].
Proof.
  intros H. apply (f_equal snd) in H. vm_compute in H. discriminate.
Qed.

(** The reference that is updated is the first one within one line, whether
    or not its type agrees: here the XSS finding is boosted by a semantic
    finding that agrees with the SQL finding only. *)
Lemma merge_boosts_first_nearby_finding :
  map (option_map detectionMethod)
      (contents (combineAnalysisResults heap_two_on_a_line [0%nat; 1%nat] [2%nat]))
  = [Some HYBRID; Some PATTERN]
  /\ map (option_map detectionMethod)
         (contents (Spec.merge heap_two_on_a_line [0%nat; 1%nat] [2%nat]))
     = [Some PATTERN; Some HYBRID].
Proof. split; vm_compute; reflexivity. Qed.

(** C7. The result of fusion has at least as many elements as [P]; it is [P]
    followed by the appended references, so every element of [P] is still in
    it; and the object behind every reference of the initial heap is still
    there with the same id, type, severity, line, column and message. *)
Theorem C7_merge_monotonic (h : heap) (P S : list ref) :
  (length P <= length (snd (combineAnalysisResults h P S)))%nat
  /\ (exists added, snd (combineAnalysisResults h P S) = (P ++ added)%list)
  /\ (forall r, In r P -> In r (snd (combineAnalysisResults h P S)))
  /\ (forall r v, h !! r = Some v ->
        exists v', fst (combineAnalysisResults h P S) !! r = Some v'
                   /\ same_finding v v').
Proof.
  destruct (fold_merge_extends P S (h, P)) as [[added Hadd] Hobj].
  fold (combineAnalysisResults h P S) in Hadd, Hobj. simpl in Hadd, Hobj.
  split; [rewrite Hadd, length_app; lia|].
  split; [eauto|].
  split; [|exact Hobj].
  intros r Hr. rewrite Hadd. apply in_or_app. left. exact Hr.
Qed.

(** C7 on scenario C. *)
Lemma C7_merge_monotonic_witness :
  In 0%nat (snd (combineAnalysisResults heap_C [0%nat] [1%nat]))
  /\ exists v', fst (combineAnalysisResults heap_C [0%nat] [1%nat]) !! 0%nat = Some v'
                /\ same_finding (pattern_finding "SQL Injection" 10 90
                                   "Use parameterized queries") v'.
Proof.
  destruct (C7_merge_monotonic heap_C [0%nat] [1%nat]) as [_ [_ [H1 H2]]].
  split.
  - apply H1. simpl. left. reflexivity.
  - apply H2. reflexivity.
Defined.

(** C8. Fusion with no semantic finding returns the references of [P] and
    leaves the heap as it was: no object is changed. *)
Theorem C8_merge_empty (h : heap) (P : list ref) :
  combineAnalysisResults h P [] = (h, P)
  /\ contents (combineAnalysisResults h P []) = map (fun r => h !! r) P.
Proof. split; reflexivity. Qed.

End Fusion.

(** ** Security score *)

Section Score.
Import Server ScoreAux.
Local Open Scope Q_scope.

Lemma weights_lookup_known (s : option string) :
  weights_lookup s = option_map weights (known_severity s).
Proof. destruct s; reflexivity. Qed.

Lemma fold_add_penalty (l : list RawVulnerability) :
  forall fs p0, effective l = Some fs ->
    exists p, fold_left Storage.add_penalty l (Some p0) = Some p
              /\ p == p0 + Spec.total_penalty fs.
Proof.
  induction l as [|v l IH]; intros fs p0 H; simpl in H.
  - inversion H; subst. exists p0. split; [reflexivity|]. simpl. ring.
  - destruct (known_severity (raw_severity v)) as [sev|] eqn:Hs; [|discriminate].
    destruct (effective l) as [fs'|] eqn:Hl; [|discriminate].
    inversion H; subst. cbn [fold_left].
    assert (E : Storage.add_penalty (Some p0) v
                = Some (p0 + inject_Z (weights sev) * effective_confidence v)).
    { unfold Storage.add_penalty. rewrite weights_lookup_known, Hs. reflexivity. }
    rewrite E. destruct (IH fs' (p0 + inject_Z (weights sev) * effective_confidence v)
                           eq_refl) as [p [Hp Hq]].
    exists p. split; [exact Hp|]. rewrite Hq. cbn [Spec.total_penalty]. ring.
Qed.

Lemma fold_add_penalty_nan (l : list RawVulnerability) :
  fold_left Storage.add_penalty l None = None.
Proof. induction l as [|v l IH]; simpl; [reflexivity|exact IH]. Qed.

Lemma total_penalty_nonneg (fs : list (Severity * Q)) :
  Forall (fun f => 0 <= snd f) fs -> 0 <= Spec.total_penalty fs.
Proof.
  induction 1 as [|[sev c] fs Hc _ IH]; simpl; [apply Qle_refl|].
  simpl in Hc.
  assert (Hw : 0 <= inject_Z (weights sev)) by (destruct sev; discriminate).
  pose proof (Qmult_le_0_compat _ _ Hw Hc) as Hm.
  apply (Qplus_le_compat 0 _ 0 _ Hm) in IH. exact IH.
Qed.

Lemma round1_nonneg (x : Q) : 0 <= x -> 0 <= Spec.round1 x.
Proof.
  intros Hx. unfold Spec.round1.
  assert (H : (0 <= Qfloor (x * 10 + (1 # 2)))%Z).
  { change 0%Z with (Qfloor 0). apply Qfloor_resp_le.
    apply (Qle_trans _ (0 * 10 + (1 # 2))); [discriminate|].
    apply Qplus_le_compat; [|apply Qle_refl].
    apply Qmult_le_compat_r; [exact Hx|discriminate]. }
  apply Qle_shift_div_l; [reflexivity|].
  rewrite Qmult_0_l. change 0 with (inject_Z 0). rewrite <- Zle_Qle. exact H.
Qed.

Lemma round1_le_10 (x : Q) : x <= 10 -> Spec.round1 x <= 10.
Proof.
  intros Hx. unfold Spec.round1.
  assert (H : (Qfloor (x * 10 + (1 # 2)) <= 100)%Z).
  { change 100%Z with (Qfloor (10 * 10 + (1 # 2))). apply Qfloor_resp_le.
    apply Qplus_le_compat; [|apply Qle_refl].
    apply Qmult_le_compat_r; [exact Hx|discriminate]. }
  apply Qle_shift_div_r; [reflexivity|].
  change (10 * 10) with (inject_Z 100). rewrite <- Zle_Qle. exact H.
Qed.

Lemma gemini_penalty_sum (l : list Gemini.Vulnerability) :
  forall z, fold_left (fun total vuln => (total + weights (Gemini.severity vuln))%Z) l z
            = (z + sum_weights l)%Z.
Proof.
  induction l as [|v l IH]; intros z; simpl; [lia|]. rewrite IH. lia.
Qed.

Lemma gemini_score_sum (l : list Gemini.Vulnerability) :
  Gemini.calculateFallbackScore l = Z.max 0 (100 - sum_weights l).
Proof.
  unfold Gemini.calculateFallbackScore, Gemini.penalty_of.
  rewrite gemini_penalty_sum. reflexivity.
Qed.

Lemma sum_weights_nonneg (l : list Gemini.Vulnerability) : (0 <= sum_weights l)%Z.
Proof.
  induction l as [|v l IH]; simpl; [lia|]. destruct (Gemini.severity v); simpl; lia.
Qed.








(** [server/storage.ts] does not normalise: with one unknown severity in the
    list the penalty, and with it the score, is NaN. *)
Lemma storage_unknown_severity_nan (v : RawVulnerability)
    (before after : list RawVulnerability) :
  known_severity (raw_severity v) = None ->
  Storage.calculateFallbackScore (before ++ v :: after) = None.
Proof.
  intros H. unfold Storage.calculateFallbackScore.
  destruct (before ++ v :: after)%list as [|x l] eqn:E.
  - destruct before; discriminate.
  - rewrite <- E, fold_left_app. simpl.
    assert (Hv : forall p, Storage.add_penalty p v = None).
    { intros p. unfold Storage.add_penalty. rewrite weights_lookup_known, H.
      destruct p; reflexivity. }
    rewrite Hv, fold_add_penalty_nan. reflexivity.
Qed.

End Score.

(** * Further properties *)

(** ** Pattern matcher: language selection, locations, composition *)

Section MatcherMore.
Import JsString Regex Client Aux MatcherAux.

Lemma scan_lines_no_patterns (lines : list string) :
  forall z, scan_lines [] z lines = [].
Proof. induction lines as [|l lines IH]; intros z; simpl; [reflexivity|apply IH]. Qed.

(** X1. A file whose extension is not in the language map is scanned with no
    signature at all: the result is empty whatever the source text. *)
Theorem detect_unsupported_language (code fileName : string) :
  languageMap (fileExtension fileName) = None ->
  detectPatterns code fileName = [].
Proof.
  intros H. unfold detectPatterns, applicablePatterns, currentLanguage. rewrite H.
  apply scan_lines_no_patterns.
Qed.

Lemma detect_unsupported_language_witness :
  detectPatterns "system('rm ' + x); eval(x)" "main.rb" = [].
Proof. apply detect_unsupported_language. reflexivity. Defined.

Lemma split_nonempty (sep : ascii) (s : string) : split sep s <> [].
Proof.
  destruct s as [|c s]; simpl; [discriminate|].
  destruct (Ascii.eqb c sep); [discriminate|]. destruct (split sep s); discriminate.
Qed.

Lemma split_app (sep : ascii) (a b : string) :
  split sep (a ++ String sep b) = (split sep a ++ split sep b)%list.
Proof.
  induction a as [|c a IH]; simpl.
  - rewrite Ascii.eqb_refl. reflexivity.
  - destruct (Ascii.eqb c sep); [rewrite IH; reflexivity|].
    rewrite IH. pose proof (split_nonempty sep a) as Hne.
    destruct (split sep a) as [|h t]; [congruence|]. reflexivity.
Qed.

Lemma split_lacks (sep : ascii) (s : string) :
  lacks sep s = true -> split sep s = [s].
Proof.
  induction s as [|c s IH]; simpl; intros H; [reflexivity|].
  apply andb_prop in H as [H1 H2]. apply negb_true_iff in H1. rewrite H1, (IH H2).
  reflexivity.
Qed.

Lemma scan_lines_app (patterns : list Pattern.VulnerabilityPattern) (l1 l2 : list string) :
  forall z, scan_lines patterns z (l1 ++ l2)
            = (scan_lines patterns z l1
               ++ scan_lines patterns (z + Z.of_nat (length l1)) l2)%list.
Proof.
  induction l1 as [|l l1 IH]; intros z.
  - cbn [app scan_lines length Z.of_nat]. rewrite Z.add_0_r. reflexivity.
  - cbn [app scan_lines]. rewrite IH, <- app_assoc.
    replace (z + 1 + Z.of_nat (length l1)) with (z + Z.of_nat (length (l :: l1)))
      by (cbn [length]; lia).
    reflexivity.
Qed.

Lemma scan_line_located (patterns : list Pattern.VulnerabilityPattern)
    (text : string) (z k : Z) :
  map (located 0) (scan_line patterns (z + k) text)
  = map (located k) (scan_line patterns z text).
Proof.
  unfold scan_line. induction patterns as [|p ps IHp]; [reflexivity|].
  cbn [flat_map]. rewrite !map_app, IHp. f_equal.
  unfold findings_of. rewrite !map_map. apply map_ext. intros m.
  unfold located, finding.
  cbn [line type severity column message suggestion confidence detectionMethod].
  replace (z + k + 1 + 0) with (z + 1 + k) by lia. reflexivity.
Qed.

Lemma scan_lines_located (patterns : list Pattern.VulnerabilityPattern)
    (lines : list string) :
  forall z k, map (located 0) (scan_lines patterns (z + k) lines)
              = map (located k) (scan_lines patterns z lines).
Proof.
  induction lines as [|l lines IH]; intros z k; [reflexivity|].
  cbn [scan_lines]. rewrite !map_app, scan_line_located. f_equal.
  replace (z + k + 1) with (z + 1 + k) by lia. apply IH.
Qed.

(** X2. Scanning two texts joined by a newline gives the findings of the
    first text, unchanged and in front, followed by the findings of the second
    text with their line numbers moved by the number of lines of the first
    (ids apart, which embed the line index). *)
Theorem detect_concatenation (a b fileName : string) :
  exists rest,
    detectPatterns (a ++ String (ascii_of_N 10) b) fileName
      = (detectPatterns a fileName ++ rest)%list
    /\ map (located 0) rest
       = map (located (Z.of_nat (length (split (ascii_of_N 10) a))))
             (detectPatterns b fileName).
Proof.
  exists (scan_lines (applicablePatterns fileName)
            (0 + Z.of_nat (length (split (ascii_of_N 10) a)))
            (split (ascii_of_N 10) b)).
  split.
  - unfold detectPatterns. rewrite split_app. apply scan_lines_app.
  - apply scan_lines_located.
Qed.

Lemma in_scan_lines (patterns : list Pattern.VulnerabilityPattern) (v : Vulnerability)
    (lines : list string) :
  forall z, In v (scan_lines patterns z lines) ->
    exists (n : nat) (line : string),
      lines !! n = Some line /\ In v (scan_line patterns (z + Z.of_nat n) line).
Proof.
  induction lines as [|l lines IH]; intros z H; [contradiction|].
  cbn [scan_lines] in H. apply in_app_or in H as [H|H].
  - exists O, l. split; [reflexivity|]. cbn [Z.of_nat]. rewrite Z.add_0_r. exact H.
  - apply IH in H as [n [line [Hn Hv]]]. exists (S n), line. split; [exact Hn|].
    replace (z + Z.of_nat (S n)) with (z + 1 + Z.of_nat n) by lia. exact Hv.
Qed.

(** Where a finding comes from: a line, an applicable signature, a match. *)
Lemma detectPatterns_origin (code fileName : string) (v : Vulnerability) :
  In v (detectPatterns code fileName) ->
  exists (n : nat) (line : string) (pattern : Pattern.VulnerabilityPattern) (m : string),
    split (ascii_of_N 10) code !! n = Some line
    /\ In pattern (applicablePatterns fileName)
    /\ In m (js_match (Pattern.pattern pattern) line)
    /\ v = finding pattern (Z.of_nat n) line m.
Proof.
  intros H. unfold detectPatterns in H. apply in_scan_lines in H as [n [line [Hn Hv]]].
  unfold scan_line in Hv. apply in_flat_map in Hv as [p [Hp Hv]].
  unfold findings_of in Hv. apply in_map_iff in Hv as [m [Hm Hin]].
  exists n, line, p, m. cbn [Z.add] in Hm. repeat split; auto.
Qed.

Lemma indexOf_from_range (sub s : string) :
  forall i, indexOf_from i s sub = -1
            \/ i <= indexOf_from i s sub <= i + Z.of_nat (String.length s).
Proof.
  induction s as [|c s IH]; intros i; cbn [indexOf_from String.length].
  - destruct (startsWith EmptyString sub); [right; cbn; lia|left; reflexivity].
  - destruct (startsWith (String c s) sub); [right; lia|].
    destruct (IH (i + 1)) as [H|H]; [left; exact H|right; lia].
Qed.

(** [indexOf] points at an occurrence. *)
Lemma indexOf_from_occurs (sub s : string) :
  forall i, 0 <= i -> i <= indexOf_from i s sub ->
            startsWith (drop (Z.to_nat (indexOf_from i s sub - i)) s) sub = true.
Proof.
  induction s as [|c s IH]; intros i Hi H; cbn [indexOf_from] in H |- *.
  - destruct (startsWith EmptyString sub) eqn:E; [|lia].
    rewrite Z.sub_diag. exact E.
  - destruct (startsWith (String c s) sub) eqn:E.
    + rewrite Z.sub_diag. exact E.
    + destruct (indexOf_from_range sub s (i + 1)) as [Hr|Hr]; [lia|].
      assert (Hi' : 0 <= i + 1) by lia.
      specialize (IH (i + 1) Hi' (proj1 Hr)).
      replace (Z.to_nat (indexOf_from (i + 1) s sub - i))
        with (S (Z.to_nat (indexOf_from (i + 1) s sub - (i + 1)))) by lia.
      exact IH.
Qed.

Lemma in_js_match_occurs (r : re) (line m : string) :
  In m (js_match r line) -> exists a, startsWith (drop a line) m = true.
Proof.
  unfold js_match. intros H. apply in_map_iff in H as [[a m'] [E H]].
  simpl in E. subst m'. exists a. eapply match_positions_occurs. exact H.
Qed.

(** X3. Every finding points into the source: its line number is one more
    than the index of a line of the text, its column lies within that line,
    and at that column the line carries text matched by the signature that
    names the finding. *)
Theorem finding_location_valid (code fileName : string) (v : Vulnerability) :
  In v (detectPatterns code fileName) ->
  exists (n : nat) (text : string) (pattern : Pattern.VulnerabilityPattern) (m : string),
    split (ascii_of_N 10) code !! n = Some text
    /\ line v = Z.of_nat n + 1
    /\ 1 <= line v <= Z.of_nat (length (split (ascii_of_N 10) code))
    /\ 0 <= column v <= Z.of_nat (String.length text)
    /\ In pattern VULNERABILITY_PATTERNS
    /\ type v = Pattern.name pattern
    /\ In m (js_match (Pattern.pattern pattern) text)
    /\ startsWith (drop (Z.to_nat (column v)) text) m = true.
Proof.
  intros H. apply detectPatterns_origin in H as [n [text [p [m [Hn [Hp [Hm ->]]]]]]].
  exists n, text, p, m. cbn [line column type finding].
  destruct (in_js_match_occurs _ _ _ Hm) as [a Ha].
  pose proof (indexOf_first text m a Ha) as Hi.
  assert (Hlt : (n < length (split (ascii_of_N 10) code))%nat)
    by (eapply lookup_lt_Some; exact Hn).
  split; [exact Hn|]. split; [reflexivity|]. split; [lia|].
  unfold indexOf in *.
  destruct (indexOf_from_range m text 0) as [Hr|Hr]; [lia|].
  split; [lia|]. split.
  { unfold applicablePatterns in Hp. apply filter_In in Hp. tauto. }
  split; [reflexivity|]. split; [exact Hm|].
  pose proof (indexOf_from_occurs m text 0 (Z.le_refl 0) (proj1 Hr)) as Ho.
  rewrite Z.sub_0_r in Ho. exact Ho.
Qed.

Lemma finding_location_valid_witness :
  exists (n : nat) (text : string) (pattern : Pattern.VulnerabilityPattern) (m : string),
    split (ascii_of_N 10) "let h = md5(x)" !! n = Some text
    /\ line (finding crypto_1 0 "let h = md5(x)" "md5") = Z.of_nat n + 1
    /\ 1 <= line (finding crypto_1 0 "let h = md5(x)" "md5")
       <= Z.of_nat (length (split (ascii_of_N 10) "let h = md5(x)"))
    /\ 0 <= column (finding crypto_1 0 "let h = md5(x)" "md5")
       <= Z.of_nat (String.length text)
    /\ In pattern VULNERABILITY_PATTERNS
    /\ type (finding crypto_1 0 "let h = md5(x)" "md5") = Pattern.name pattern
    /\ In m (js_match (Pattern.pattern pattern) text)
    /\ startsWith (drop (Z.to_nat (column (finding crypto_1 0 "let h = md5(x)" "md5"))) text) m
       = true.
Proof.
  apply (finding_location_valid "let h = md5(x)" "app.js").
  assert (Hp : In crypto_1 (applicablePatterns "app.js")).
  { unfold applicablePatterns. apply filter_In. split; [|reflexivity].
    unfold VULNERABILITY_PATTERNS. do 9 right. left. reflexivity. }
  destruct (detectPatterns_segment "let h = md5(x)" "app.js" "let h = md5(x)" 0 crypto_1
              eq_refl Hp) as [pre [post E]].
  rewrite E. apply in_or_app. right. apply in_or_app. left.
  unfold findings_of. apply in_map_iff. exists "md5". split; [reflexivity|].
  vm_compute. left. reflexivity.
Defined.

End MatcherMore.

(** ** Pattern matcher: metadata, confidence, file names *)

Section MatcherMeta.
Import JsString Regex Client Aux MatcherAux PatternInfo.

(** Looking a registry name up gives back that signature's texts. *)
Lemma registry_lookup_sound :
  forallb (fun p =>
             String.eqb (getVulnerabilityTypeDescription (Pattern.name p))
                        (Pattern.description p)
             && String.eqb (getVulnerabilityTypeSuggestion (Pattern.name p))
                           (Pattern.suggestion p)
             && not_low (Pattern.severity p))
          VULNERABILITY_PATTERNS = true.
Proof. vm_compute. reflexivity. Qed.

(** X4. For every finding of the matcher, looking its type up again with
    [getVulnerabilityTypeDescription] and [getVulnerabilityTypeSuggestion]
    returns exactly the finding's message and suggestion. *)
Theorem finding_texts_round_trip (code fileName : string) (v : Vulnerability) :
  In v (detectPatterns code fileName) ->
  getVulnerabilityTypeDescription (type v) = message v
  /\ getVulnerabilityTypeSuggestion (type v) = suggestion v.
Proof.
  intros H. apply detectPatterns_origin in H as [n [text [p [m [_ [Hp [_ ->]]]]]]].
  cbn [type message suggestion finding].
  unfold applicablePatterns in Hp. apply filter_In in Hp as [Hp _].
  pose proof registry_lookup_sound as R. rewrite forallb_forall in R.
  specialize (R p Hp). apply andb_prop in R as [R _]. apply andb_prop in R as [R1 R2].
  apply String.eqb_eq in R1, R2. split; assumption.
Qed.

Lemma finding_texts_round_trip_witness :
  getVulnerabilityTypeDescription (type (finding crypto_1 0 "let h = md5(x)" "md5"))
  = message (finding crypto_1 0 "let h = md5(x)" "md5")
  /\ getVulnerabilityTypeSuggestion (type (finding crypto_1 0 "let h = md5(x)" "md5"))
     = suggestion (finding crypto_1 0 "let h = md5(x)" "md5").
Proof.
  apply (finding_texts_round_trip "let h = md5(x)" "app.js").
  assert (Hp : In crypto_1 (applicablePatterns "app.js")).
  { unfold applicablePatterns. apply filter_In. split; [|reflexivity].
    unfold VULNERABILITY_PATTERNS. do 9 right. left. reflexivity. }
  destruct (detectPatterns_segment "let h = md5(x)" "app.js" "let h = md5(x)" 0 crypto_1
              eq_refl Hp) as [pre [post E]].
  rewrite E. apply in_or_app. right. apply in_or_app. left.
  unfold findings_of. apply in_map_iff. exists "md5". split; [reflexivity|].
  vm_compute. left. reflexivity.
Defined.

Lemma find_none_all {A : Type} (f : A -> bool) (l : list A) :
  (forall x, In x l -> f x = false) -> List.find f l = None.
Proof.
  induction l as [|x l IH]; intros H; simpl; [reflexivity|].
  rewrite (H x) by (left; reflexivity). apply IH. intros y Hy. apply H. right. exact Hy.
Qed.

(** X5. A type that is not the name of a registry signature (the labels of
    the semantic reviewer, for instance) gets the two fallback texts. *)
Theorem unknown_type_fallback_texts (ty : string) :
  (forall p, In p VULNERABILITY_PATTERNS -> Pattern.name p <> ty) ->
  getVulnerabilityTypeDescription ty = "Unknown vulnerability type"
  /\ getVulnerabilityTypeSuggestion ty = "Review and fix this security issue".
Proof.
  intros H.
  assert (E : find_by_name ty = None).
  { unfold find_by_name. apply find_none_all. intros p Hp.
    apply String.eqb_neq. apply H. exact Hp. }
  unfold getVulnerabilityTypeDescription, getVulnerabilityTypeSuggestion.
  rewrite E. split; reflexivity.
Qed.

Lemma unknown_type_fallback_texts_witness :
  getVulnerabilityTypeDescription "SQL Injection" = "Unknown vulnerability type"
  /\ getVulnerabilityTypeSuggestion "SQL Injection" = "Review and fix this security issue".
Proof.
  apply unknown_type_fallback_texts. intros p Hp.
  assert (F : forallb (fun p => negb (String.eqb (Pattern.name p) "SQL Injection"))
                VULNERABILITY_PATTERNS = true) by (vm_compute; reflexivity).
  rewrite forallb_forall in F. specialize (F p Hp).
  apply negb_true_iff in F. apply String.eqb_neq. exact F.
Defined.

Lemma raw_confidence_never_clamped (sev : Severity) (text : string) :
  Z.min 100 (Z.max 30 (raw_confidence sev text)) = raw_confidence sev text.
Proof.
  unfold raw_confidence.
  destruct sev, (is_comment_line text), (looks_like_test text); reflexivity.
Qed.

(** What the registry fixes in any finding built from one of its signatures. *)
Lemma registry_finding_metadata (p : Pattern.VulnerabilityPattern) (z : Z)
    (text m : string) :
  In p VULNERABILITY_PATTERNS ->
  severity (finding p z text m) <> LOW
  /\ exists c : Z, confidence (finding p z text m) = inject_Z c /\ 60 <= c <= 100.
Proof.
  intros Hp. cbn [severity confidence finding].
  pose proof registry_lookup_sound as R. rewrite forallb_forall in R.
  specialize (R p Hp). apply andb_prop in R as [_ R]. split.
  - intros E. rewrite E in R. discriminate.
  - exists (calculateConfidence p m text). split; [reflexivity|].
    unfold calculateConfidence. rewrite raw_confidence_never_clamped.
    unfold raw_confidence.
    destruct (Pattern.severity p), (is_comment_line text), (looks_like_test text);
      simpl; try lia; discriminate.
Qed.

(** X6. Every finding of the matcher is tagged pattern, is never of severity
    low, and has an integer confidence between 60 and 100. *)
Theorem findings_metadata (code fileName : string) (v : Vulnerability) :
  In v (detectPatterns code fileName) ->
  detectionMethod v = PATTERN
  /\ severity v <> LOW
  /\ exists c : Z, confidence v = inject_Z c /\ 60 <= c <= 100.
Proof.
  intros H. apply detectPatterns_origin in H as [n [text [p [m [_ [Hp [_ ->]]]]]]].
  unfold applicablePatterns in Hp. apply filter_In in Hp as [Hp _].
  split; [reflexivity|]. apply registry_finding_metadata, Hp.
Qed.

Lemma findings_metadata_witness :
  detectionMethod (finding crypto_1 0 "let h = md5(x)" "md5") = PATTERN
  /\ severity (finding crypto_1 0 "let h = md5(x)" "md5") <> LOW
  /\ exists c : Z, confidence (finding crypto_1 0 "let h = md5(x)" "md5") = inject_Z c
                   /\ 60 <= c <= 100.
Proof.
  apply (findings_metadata "let h = md5(x)" "app.js").
  assert (Hp : In crypto_1 (applicablePatterns "app.js")).
  { unfold applicablePatterns. apply filter_In. split; [|reflexivity].
    unfold VULNERABILITY_PATTERNS. do 9 right. left. reflexivity. }
  destruct (detectPatterns_segment "let h = md5(x)" "app.js" "let h = md5(x)" 0 crypto_1
              eq_refl Hp) as [pre [post E]].
  rewrite E. apply in_or_app. right. apply in_or_app. left.
  unfold findings_of. apply in_map_iff. exists "md5". split; [reflexivity|].
  vm_compute. left. reflexivity.
Defined.

(** X7. The two clamps never act, so the adjustments are exact: for one
    signature, a line that is a comment scores exactly 10 less than a line
    that is not, and a line in test context exactly 20 less than one that is
    not, the other condition being equal. *)
Theorem confidence_adjustments_exact
    (pattern : Pattern.VulnerabilityPattern) (m1 m2 l1 l2 : string) :
  (is_comment_line l1 = true -> is_comment_line l2 = false ->
   looks_like_test l1 = looks_like_test l2 ->
   calculateConfidence pattern m1 l1 = calculateConfidence pattern m2 l2 - 10)
  /\ (looks_like_test l1 = true -> looks_like_test l2 = false ->
      is_comment_line l1 = is_comment_line l2 ->
      calculateConfidence pattern m1 l1 = calculateConfidence pattern m2 l2 - 20).
Proof.
  unfold calculateConfidence. rewrite !raw_confidence_never_clamped.
  unfold raw_confidence. split.
  - intros H1 H2 H3. rewrite H1, H2, H3. cbn [negb].
    destruct (looks_like_test l2); lia.
  - intros H1 H2 H3. rewrite H1, H2, H3.
    destruct (negb (is_comment_line l2)); lia.
Qed.

Lemma confidence_adjustments_exact_witness :
  calculateConfidence auth_1 "x" "// password = 'admin123'"
  = calculateConfidence auth_1 "y" "password = 'admin123'" - 10
  /\ calculateConfidence auth_1 "x" "const testPassword = 'admin123'"
     = calculateConfidence auth_1 "y" "const password = 'admin123'" - 20.
Proof.
  split.
  - apply (proj1 (confidence_adjustments_exact auth_1 "x" "y"
                    "// password = 'admin123'" "password = 'admin123'")); reflexivity.
  - apply (proj2 (confidence_adjustments_exact auth_1 "x" "y"
                    "const testPassword = 'admin123'" "const password = 'admin123'"));
      reflexivity.
Defined.

Lemma trimStart_ws (ws text : string) :
  all_ws ws = true -> trimStart (ws ++ text) = trimStart text.
Proof.
  induction ws as [|c ws IH]; simpl; intros H; [reflexivity|].
  apply andb_prop in H as [H1 H2]. rewrite H1. apply IH, H2.
Qed.

Lemma is_ws_lower (c : ascii) : is_ws c = true -> toLowerCase_char c = c.
Proof.
  destruct c as [[] [] [] [] [] [] [] []]; intros H; try reflexivity; discriminate.
Qed.

(** A word that starts with a letter cannot begin inside white space. *)
Lemma includes_ws (ws text word : string) (w : ascii) (rest : string) :
  word = String w rest -> is_ws w = false -> all_ws ws = true ->
  includes (toLowerCase (ws ++ text)) word = includes (toLowerCase text) word.
Proof.
  intros -> Hw. induction ws as [|c ws IH]; intros H; [reflexivity|].
  simpl in H. apply andb_prop in H as [H1 H2].
  change (includes (toLowerCase (String c ws ++ text)) (String w rest))
    with (Ascii.eqb w (toLowerCase_char c)
          && startsWith (toLowerCase (ws ++ text)) rest
          || includes (toLowerCase (ws ++ text)) (String w rest)).
  rewrite (is_ws_lower c H1).
  destruct (Ascii.eqb_spec w c) as [->|_]; [congruence|].
  cbn [andb orb]. apply IH, H2.
Qed.

(** X8. Indentation does not change the confidence: putting any white space
    in front of a line leaves the value of [calculateConfidence] as it is. *)
Theorem confidence_ignores_indentation
    (pattern : Pattern.VulnerabilityPattern) (m1 m2 ws text : string) :
  all_ws ws = true ->
  calculateConfidence pattern m1 (ws ++ text) = calculateConfidence pattern m2 text.
Proof.
  intros H. unfold calculateConfidence, raw_confidence.
  assert (E1 : is_comment_line (ws ++ text) = is_comment_line text).
  { unfold is_comment_line, trim. rewrite (trimStart_ws ws text H). reflexivity. }
  assert (E2 : looks_like_test (ws ++ text) = looks_like_test text).
  { unfold looks_like_test.
    rewrite (includes_ws ws text "test" "t" "est" eq_refl eq_refl H).
    rewrite (includes_ws ws text "mock" "m" "ock" eq_refl eq_refl H). reflexivity. }
  rewrite E1, E2. reflexivity.
Qed.

Lemma confidence_ignores_indentation_witness :
  calculateConfidence xss_3 "eval(" ("    " ++ "eval(x)")
  = calculateConfidence xss_3 "eval(" "eval(x)".
Proof. apply confidence_ignores_indentation. reflexivity. Defined.

Lemma toLowerCase_char_idem (c : ascii) :
  toLowerCase_char (toLowerCase_char c) = toLowerCase_char c.
Proof. destruct c as [[] [] [] [] [] [] [] []]; reflexivity. Qed.

Lemma toLowerCase_idem (s : string) : toLowerCase (toLowerCase s) = toLowerCase s.
Proof.
  induction s as [|c s IH]; simpl; [reflexivity|].
  rewrite toLowerCase_char_idem, IH. reflexivity.
Qed.

Lemma toLowerCase_char_dot (c : ascii) :
  Ascii.eqb (toLowerCase_char c) "." = Ascii.eqb c ".".
Proof. destruct c as [[] [] [] [] [] [] [] []]; reflexivity. Qed.

Lemma lacks_dot_lower (s : string) : lacks "." (toLowerCase s) = lacks "." s.
Proof.
  induction s as [|c s IH]; simpl; [reflexivity|].
  rewrite toLowerCase_char_dot, IH. reflexivity.
Qed.

Lemma last_map_app {A : Type} (l : list A) (x : A) :
  List.last (map Some (l ++ [x])) None = Some x.
Proof.
  induction l as [|y l IH]; [reflexivity|].
  cbn [app map]. destruct (map Some (l ++ [x])) eqn:E.
  - destruct l; discriminate.
  - cbn [List.last]. exact IH.
Qed.

Lemma fileExtension_last (base ext : string) :
  lacks "." ext = true -> fileExtension (base ++ String "." ext) = toLowerCase ext.
Proof.
  intros H. unfold fileExtension.
  rewrite split_app, (split_lacks "." ext H), last_map_app. reflexivity.
Qed.

(** X9. Only the text after the last dot of the file name counts, and its
    letter case does not: two names whose last extensions agree up to case
    give the same findings on every source text. *)
Theorem detect_depends_on_extension (code base1 base2 ext : string) :
  lacks "." ext = true ->
  fileExtension (base1 ++ String "." ext) = toLowerCase ext
  /\ detectPatterns code (base1 ++ String "." ext)
     = detectPatterns code (base2 ++ String "." (toLowerCase ext)).
Proof.
  intros H. split; [apply fileExtension_last, H|].
  unfold detectPatterns, applicablePatterns, currentLanguage.
  rewrite (fileExtension_last base1 ext H).
  rewrite (fileExtension_last base2 (toLowerCase ext))
    by (rewrite lacks_dot_lower; exact H).
  rewrite toLowerCase_idem. reflexivity.
Qed.

Lemma detect_depends_on_extension_witness :
  fileExtension ("src/App.test" ++ String "." "TSX") = toLowerCase "TSX"
  /\ detectPatterns "eval(x)" ("src/App.test" ++ String "." "TSX")
     = detectPatterns "eval(x)" ("b" ++ String "." (toLowerCase "TSX")).
Proof. apply detect_depends_on_extension. reflexivity. Defined.

End MatcherMeta.

(** ** Result fusion: what is kept, what is changed, how many *)

Section FusionMore.
Import JsString Client Aux FusionAux FusionMoreAux.

(** A relation that every step satisfies holds for the whole fusion. *)
Lemma fold_merge_relation (R : heap * list ref -> heap * list ref -> Prop)
    (P : list ref) :
  (forall st, R st st) ->
  (forall a b c, R a b -> R b c -> R a c) ->
  (forall st j, R st (merge_step P st j)) ->
  forall S st, R st (fold_left (merge_step P) S st).
Proof.
  intros Hrefl Htrans Hstep S. induction S as [|j S IH]; intros st; simpl.
  - apply Hrefl.
  - eapply Htrans; [apply Hstep|apply IH].
Qed.

(** The shape of one step, with the dangling cases folded away. *)
Lemma merge_step_cases (P : list ref) (h : heap) (acc : list ref) (j : ref) :
  merge_step P (h, acc) j = (h, acc)
  \/ (exists jv, h !! j = Some jv
                 /\ merge_step P (h, acc) j
                    = ((h ++ [as_hybrid jv])%list, (acc ++ [length h])%list))
  \/ (exists jv r pv, h !! j = Some jv /\ In r P /\ h !! r = Some pv
                      /\ merge_step P (h, acc) j = (<[r := boost pv jv]> h, acc)).
Proof.
  unfold merge_step. destruct (h !! j) as [jv|] eqn:Hj; [|left; reflexivity].
  destruct (negb _).
  - right. left. exists jv. split; reflexivity.
  - destruct (List.find _ P) as [r|] eqn:Hf; [|left; reflexivity].
    destruct (h !! r) as [pv|] eqn:Hr; [|left; reflexivity].
    right. right. exists jv, r, pv. apply find_some in Hf as [Hf _].
    repeat split; auto.
Qed.

Lemma as_hybrid_conf_ok (jv : Vulnerability) : conf_ok jv -> conf_ok (as_hybrid jv).
Proof.
  unfold conf_ok. cbn [confidence as_hybrid]. intros [H0 H1]. split.
  - apply Q.min_glb; [|discriminate].
    apply (Qle_trans _ (confidence jv + 0)); [rewrite Qplus_0_r; exact H0|].
    apply Qplus_le_r. discriminate.
  - apply Q.le_min_r.
Qed.

Lemma boost_conf_ok (pv jv : Vulnerability) :
  conf_ok pv -> conf_ok (boost pv jv) /\ (confidence pv <= confidence (boost pv jv))%Q.
Proof.
  unfold conf_ok. cbn [confidence boost]. intros [H0 H1].
  assert (Hle : (confidence pv <= confidence pv + 15)%Q).
  { apply (Qle_trans _ (confidence pv + 0)); [rewrite Qplus_0_r; apply Qle_refl|].
    apply Qplus_le_r. discriminate. }
  split; [split|].
  - apply Q.min_glb; [|discriminate]. eapply Qle_trans; [exact H0|exact Hle].
  - apply Q.le_min_r.
  - apply Q.min_glb; [exact Hle|exact H1].
Qed.

Lemma conf_kept_step (P : list ref) (st : heap * list ref) (j : ref) :
  conf_kept st (merge_step P st j).
Proof.
  destruct st as [h acc]. intros Hall. cbn [fst] in Hall.
  destruct (merge_step_cases P h acc j) as [E|[[jv [Hj E]]|[jv [r [pv [Hj [_ [Hr E]]]]]]]];
    rewrite E; cbn [fst].
  - split; [exact Hall|]. intros r v H. exists v. split; [exact H|apply Qle_refl].
  - split.
    + apply Forall_app. split; [exact Hall|]. constructor; [|constructor].
      apply as_hybrid_conf_ok. eapply Forall_lookup_1; eassumption.
    + intros r v H. exists v. split; [apply lookup_app_l_Some, H|apply Qle_refl].
  - assert (Hpv : conf_ok pv) by (eapply Forall_lookup_1; eassumption).
    destruct (boost_conf_ok pv jv Hpv) as [Hb Hmono]. split.
    + apply Forall_insert; assumption.
    + intros r' v H. destruct (Nat.eq_dec r r') as [<-|Hne].
      * exists (boost pv jv). split.
        -- apply list_lookup_insert_eq. eapply lookup_lt_Some; eassumption.
        -- pose proof (eq_trans (eq_sym Hr) H) as Ev. inversion Ev; subst. exact Hmono.
      * exists v. split; [|apply Qle_refl].
        etransitivity; [apply list_lookup_insert_ne; exact Hne|exact H].
Qed.

Lemma conf_kept_trans (a b c : heap * list ref) :
  conf_kept a b -> conf_kept b c -> conf_kept a c.
Proof.
  intros Hab Hbc Ha. destruct (Hab Ha) as [Hb Hab']. destruct (Hbc Hb) as [Hc Hbc'].
  split; [exact Hc|]. intros r v H.
  destruct (Hab' r v H) as [v1 [H1 L1]]. destruct (Hbc' r v1 H1) as [v2 [H2 L2]].
  exists v2. split; [exact H2|]. eapply Qle_trans; eassumption.
Qed.

Lemma conf_kept_fold (h : heap) (P S : list ref) :
  conf_kept (h, P) (combineAnalysisResults h P S).
Proof.
  apply (fold_merge_relation conf_kept P).
  - intros st Hst. split; [exact Hst|]. intros r v Hr. exists v.
    split; [exact Hr|apply Qle_refl].
  - apply conf_kept_trans.
  - apply conf_kept_step.
Qed.

(** X10. If every confidence in the heap lies in [0, 100] before fusion, every
    confidence lies in [0, 100] after it, and no finding that existed before
    has a lower confidence afterwards. *)
Theorem merge_keeps_confidence_scale (h : heap) (P S : list ref) :
  Forall conf_ok h ->
  Forall conf_ok (fst (combineAnalysisResults h P S))
  /\ (forall r v, h !! r = Some v ->
        exists v', fst (combineAnalysisResults h P S) !! r = Some v'
                   /\ (confidence v <= confidence v')%Q).
Proof.
  intros H. destruct (conf_kept_fold h P S H) as [Hall Hmono].
  split; [exact Hall|]. intros r v Hr. destruct (Hmono r v Hr) as [v' [Hv' Hle]].
  exists v'. split; assumption.
Qed.

Lemma merge_keeps_confidence_scale_witness :
  Forall conf_ok (fst (combineAnalysisResults heap_C [0%nat] [1%nat])).
Proof.
  apply (merge_keeps_confidence_scale heap_C [0%nat] [1%nat]).
  repeat constructor; discriminate.
Defined.

Lemma changes_hybrid_step (P : list ref) (st : heap * list ref) (j : ref) :
  changes_hybrid st (merge_step P st j).
Proof.
  destruct st as [h acc]. intros r' v' H.
  destruct (merge_step_cases P h acc j) as [E|[[jv [Hj E]]|[jv [r [pv [Hj [_ [Hr E]]]]]]]];
    rewrite E in H; cbn [fst] in H |- *.
  - left. exact H.
  - apply lookup_app_Some in H as [H|[_ H]]; [left; exact H|right].
    destruct (r' - length h)%nat; [|destruct n; discriminate].
    inversion H. reflexivity.
  - destruct (Nat.eq_dec r r') as [<-|Hne].
    + right. assert (Hlt : (r < length h)%nat) by (eapply lookup_lt_Some; eassumption).
      pose proof (list_lookup_insert_eq h r (boost pv jv) Hlt) as Hi.
      pose proof (eq_trans (eq_sym Hi) H) as Ev. inversion Ev. reflexivity.
    + left. etransitivity; [symmetry; apply list_lookup_insert_ne; exact Hne|exact H].
Qed.

Lemma changes_hybrid_fold (h : heap) (P S : list ref) :
  changes_hybrid (h, P) (combineAnalysisResults h P S).
Proof.
  apply (fold_merge_relation changes_hybrid P).
  - intros st r v' H. left. exact H.
  - intros a b c Hab Hbc r v' H. destruct (Hbc r v' H) as [H1|H1]; [|right; exact H1].
    apply Hab. exact H1.
  - apply changes_hybrid_step.
Qed.

(** X11. Every object that fusion creates or changes carries the method
    hybrid: an object of the final heap is either exactly the object that was
    at that reference before, or it is tagged hybrid. *)
Theorem merge_changes_are_hybrid (h : heap) (P S : list ref) (r : ref) (v' : Vulnerability) :
  fst (combineAnalysisResults h P S) !! r = Some v' ->
  h !! r = Some v' \/ detectionMethod v' = HYBRID.
Proof.
  intros H. destruct (changes_hybrid_fold h P S r v' H) as [Hsame|Hhy].
  - left. exact Hsame.
  - right. exact Hhy.
Qed.

Lemma merge_changes_are_hybrid_witness :
  heap_C !! 0%nat = Some (boost (pattern_finding "SQL Injection" 10 90 "Use parameterized queries")
                                (ai_finding "SQL Injection Risk" 11 80
                                   "Bind the id as a parameter"))
  \/ detectionMethod (boost (pattern_finding "SQL Injection" 10 90 "Use parameterized queries")
                            (ai_finding "SQL Injection Risk" 11 80
                               "Bind the id as a parameter")) = HYBRID.
Proof.
  apply (merge_changes_are_hybrid heap_C [0%nat] [1%nat] 0%nat). reflexivity.
Defined.

Lemma outside_kept_step (P : list ref) (st : heap * list ref) (j : ref) :
  outside_kept P st (merge_step P st j).
Proof.
  destruct st as [h acc].
  destruct (merge_step_cases P h acc j) as [E|[[jv [Hj E]]|[jv [r [pv [Hj [Hin [Hr E]]]]]]]];
    rewrite E; unfold outside_kept; cbn [fst].
  - split; [lia|]. reflexivity.
  - split; [rewrite length_app; lia|]. intros r Hr Hlt. apply lookup_app_l. exact Hlt.
  - split; [unfold heap; rewrite length_insert; lia|]. intros r' Hnot Hlt.
    apply list_lookup_insert_ne. intros ->. contradiction.
Qed.

(** X12. Fusion assigns only to objects referenced by the pattern list:
    every other object of the initial heap, the semantic findings among them,
    is exactly as it was. *)
Theorem merge_leaves_other_objects (h : heap) (P S : list ref) (r : ref) :
  ~ In r P -> (r < length h)%nat ->
  fst (combineAnalysisResults h P S) !! r = h !! r.
Proof.
  revert r.
  assert (H : outside_kept P (h, P) (combineAnalysisResults h P S)).
  { apply (fold_merge_relation (outside_kept P) P).
    - intros st. split; [lia|reflexivity].
    - intros a b c [L1 K1] [L2 K2]. split; [lia|]. intros r Hr Hlt.
      rewrite K2 by (auto; lia). apply K1; assumption.
    - apply outside_kept_step. }
  destruct H as [_ H]. exact H.
Qed.

Lemma merge_leaves_other_objects_witness :
  fst (combineAnalysisResults heap_C [0%nat] [1%nat]) !! 1%nat = heap_C !! 1%nat.
Proof.
  apply merge_leaves_other_objects.
  - simpl. intros [H|[]]. discriminate.
  - simpl. lia.
Defined.

End FusionMore.

Section FusionCount.
Import JsString Client Aux FusionAux FusionMoreAux FusionCountAux.

Lemma overlaps_same (pv pv' jv jv' : Vulnerability) :
  same_finding pv pv' -> same_finding jv jv' -> overlaps pv' jv' = overlaps pv jv.
Proof.
  intros [_ [Ht [_ [Hl _]]]] [_ [Ht' [_ [Hl' _]]]].
  unfold overlaps, near. rewrite Ht, Hl, Ht', Hl'. reflexivity.
Qed.

Lemma existsb_ext_in {A : Type} (f g : A -> bool) (l : list A) :
  (forall x, In x l -> f x = g x) -> existsb f l = existsb g l.
Proof.
  induction l as [|x l IH]; intros H; simpl; [reflexivity|].
  rewrite (H x) by (left; reflexivity). f_equal. apply IH.
  intros y Hy. apply H. right. exact Hy.
Qed.

Lemma tracks_refl (h : heap) : tracks h h.
Proof. intros r v H. exists v. split; [exact H|apply same_finding_refl]. Qed.

Lemma tracks_step (P : list ref) (h h' : heap) (acc : list ref) (j : ref) :
  tracks h h' -> tracks h (fst (merge_step P (h', acc) j)).
Proof.
  intros T r v H. destruct (T r v H) as [v1 [H1 S1]].
  destruct (merge_step_extends P (h', acc) j) as [_ E].
  destruct (E r v1 H1) as [v2 [H2 S2]]. exists v2. split; [exact H2|].
  eapply same_finding_trans; eassumption.
Qed.

Lemma heap_lookup_lt (h : heap) (r : ref) :
  (r < length h)%nat -> exists v, h !! r = Some v.
Proof. intros H. destruct (lookup_lt_is_Some_2 h r H) as [v Hv]. exists v. exact Hv. Qed.

Lemma overlap_test_stable (P : list ref) (h h' : heap) (jv jv' : Vulnerability) :
  tracks h h' -> in_heap h P -> same_finding jv jv' ->
  existsb (deref h' (fun pv => overlaps pv jv')) P
  = existsb (deref h (fun pv => overlaps pv jv)) P.
Proof.
  intros T HP Sj. apply existsb_ext_in. intros r Hr.
  unfold in_heap in HP. rewrite List.Forall_forall in HP. specialize (HP r Hr).
  destruct (heap_lookup_lt h r HP) as [pv Hpv].
  destruct (T r pv Hpv) as [pv' [Hpv' Sp]]. unfold deref.
  rewrite Hpv, Hpv'. apply overlaps_same; assumption.
Qed.

Lemma count_step (P : list ref) (h h' : heap) (acc : list ref) (j : ref) :
  tracks h h' -> in_heap h P -> (j < length h)%nat ->
  length (snd (merge_step P (h', acc) j))
  = (length acc + if novel h P j then 1 else 0)%nat.
Proof.
  intros T HP Hj. destruct (heap_lookup_lt h j Hj) as [jv Hjv].
  destruct (T j jv Hjv) as [jv' [Hjv' Sj]].
  unfold novel, merge_step. rewrite Hjv, Hjv'.
  rewrite (overlap_test_stable P h h' jv jv' T HP Sj).
  destruct (existsb (deref h (fun pv => overlaps pv jv)) P); cbn [negb].
  - destruct (List.find _ P) as [r|]; [|cbn [snd]; lia].
    destruct (h' !! r); cbn [snd]; lia.
  - cbn [snd]. rewrite length_app. cbn [length]. lia.
Qed.

Lemma count_fold (P : list ref) (h : heap) (S : list ref) :
  in_heap h P -> in_heap h S ->
  forall h' acc, tracks h h' ->
    length (snd (fold_left (merge_step P) S (h', acc)))
    = (length acc + length (List.filter (novel h P) S))%nat.
Proof.
  intros HP. induction S as [|j S IH]; intros HS h' acc T.
  - cbn. lia.
  - inversion HS as [|? ? Hj HS']; subst. cbn [fold_left List.filter].
    pose proof (count_step P h h' acc j T HP Hj) as C.
    pose proof (tracks_step P h h' acc j T) as T'.
    destruct (merge_step P (h', acc) j) as [h2 acc2]. cbn [fst snd] in C, T'.
    rewrite (IH HS' h2 acc2 T'), C. destruct (novel h P j); cbn [length]; lia.
Qed.

Lemma filter_length_le {A : Type} (f : A -> bool) (l : list A) :
  (length (List.filter f l) <= length l)%nat.
Proof. induction l as [|x l IH]; simpl; [lia|]. destruct (f x); simpl; lia. Qed.

(** X13. The number of findings after fusion is the number of pattern
    findings plus the number of semantic findings that overlap no pattern
    finding, judged on the lists as they were passed in; so it is at most the
    sum of the two lengths. *)
Theorem merge_result_length (h : heap) (P S : list ref) :
  in_heap h P -> in_heap h S ->
  length (snd (combineAnalysisResults h P S))
  = (length P + length (List.filter (novel h P) S))%nat
  /\ (length (snd (combineAnalysisResults h P S)) <= length P + length S)%nat.
Proof.
  intros HP HS.
  pose proof (count_fold P h S HP HS h P (tracks_refl h)) as C.
  fold (combineAnalysisResults h P S) in C. split; [exact C|].
  rewrite C. pose proof (filter_length_le (novel h P) S). lia.
Qed.

Lemma merge_result_length_witness :
  length (snd (combineAnalysisResults heap_two_on_a_line [0%nat; 1%nat] [2%nat; 2%nat]))
  = (length [0%nat; 1%nat]
     + length (List.filter (novel heap_two_on_a_line [0%nat; 1%nat]) [2%nat; 2%nat]))%nat
  /\ (length (snd (combineAnalysisResults heap_two_on_a_line [0%nat; 1%nat] [2%nat; 2%nat]))
      <= length [0%nat; 1%nat] + length [2%nat; 2%nat])%nat.
Proof.
  apply merge_result_length; repeat constructor.
Defined.

Lemma startsWith_empty (s : string) : startsWith s EmptyString = true.
Proof. destruct s; reflexivity. Qed.

Lemma includes_empty (s : string) : includes s EmptyString = true.
Proof. destruct s; reflexivity. Qed.

(** X14. A semantic finding whose type is empty or starts with a space
    passes the type test against every pattern finding: it is merged into the
    first pattern finding within one line of it, whatever that finding is, and
    is not appended. *)
Theorem blank_type_merges_by_line
    (h : heap) (P : list ref) (j r : ref) (jv pv : Vulnerability) :
  h !! j = Some jv ->
  (type jv = EmptyString \/ exists rest, type jv = String " " rest) ->
  List.find (deref h (fun p => near p jv)) P = Some r ->
  h !! r = Some pv ->
  (forall p, overlaps p jv = near p jv)
  /\ combineAnalysisResults h P [j] = (<[r := boost pv jv]> h, P).
Proof.
  intros Hj Hty Hf Hr.
  assert (Hw : first_word (type jv) = EmptyString).
  { unfold first_word. destruct Hty as [->|[rest ->]]; reflexivity. }
  assert (Ho : forall p, overlaps p jv = near p jv).
  { intros p. unfold overlaps. rewrite Hw, includes_empty. apply andb_true_r. }
  split; [exact Ho|].
  unfold combineAnalysisResults. cbn [fold_left]. unfold merge_step. rewrite Hj.
  assert (E : existsb (deref h (fun p => overlaps p jv)) P = true).
  { rewrite (existsb_ext_in _ (deref h (fun p => near p jv))).
    - eapply find_some_existsb. exact Hf.
    - intros x _. unfold deref. destruct (h !! x); [apply Ho|reflexivity]. }
  rewrite E. cbn [negb]. rewrite Hf, Hr. reflexivity.
Qed.

Lemma blank_type_merges_by_line_witness :
  combineAnalysisResults heap_blank [0%nat] [1%nat]
  = (<[0%nat := boost (pattern_finding "XSS - Eval Function" 10 90 "Avoid eval")
                      (ai_finding " Weak randomness" 11 80 "Use a CSPRNG")]> heap_blank,
     [0%nat]).
Proof.
  apply (blank_type_merges_by_line heap_blank [0%nat] 1%nat 0%nat
           (ai_finding " Weak randomness" 11 80 "Use a CSPRNG")
           (pattern_finding "XSS - Eval Function" 10 90 "Avoid eval")).
  - reflexivity.
  - right. exists "Weak randomness". reflexivity.
  - reflexivity.
  - reflexivity.
Defined.

Lemma appends_fresh_step (P : list ref) (st : heap * list ref) (j : ref) :
  appends_fresh st (merge_step P st j).
Proof.
  destruct st as [h acc].
  destruct (merge_step_cases P h acc j) as [E|[[jv [Hj E]]|[jv [r [pv [Hj [Hin [Hr E]]]]]]]];
    rewrite E; unfold appends_fresh; cbn [fst snd].
  - split; [lia|]. exists []. split; [symmetry; apply app_nil_r|constructor].
  - split; [rewrite length_app; lia|]. exists [length h]. split; [reflexivity|].
    constructor; [|constructor]. rewrite length_app. cbn. lia.
  - split; [unfold heap; rewrite length_insert; lia|].
    exists []. split; [symmetry; apply app_nil_r|constructor].
Qed.

Lemma appends_fresh_trans (a b c : heap * list ref) :
  appends_fresh a b -> appends_fresh b c -> appends_fresh a c.
Proof.
  intros [L1 [x [Hx Fx]]] [L2 [y [Hy Fy]]]. split; [lia|].
  exists (x ++ y)%list. split; [rewrite Hy, Hx; symmetry; apply app_assoc|].
  apply Forall_app. split.
  - eapply Forall_impl; [exact Fx|]. cbn. intros r Hr. lia.
  - eapply Forall_impl; [exact Fy|]. cbn. intros r Hr. lia.
Qed.

Lemma appends_fresh_fold (h : heap) (P S : list ref) :
  appends_fresh (h, P) (combineAnalysisResults h P S).
Proof.
  apply (fold_merge_relation appends_fresh P).
  - intros st. split; [lia|]. exists []. split; [symmetry; apply app_nil_r|constructor].
  - apply appends_fresh_trans.
  - apply appends_fresh_step.
Qed.

(** An element of the fused list is an object of the final heap: a pattern
    finding exactly as it was, or an object tagged hybrid. *)
Lemma result_elements (h : heap) (P S : list ref) (r : ref) :
  in_heap h P ->
  In r (snd (combineAnalysisResults h P S)) ->
  exists v', fst (combineAnalysisResults h P S) !! r = Some v'
             /\ ((In r P /\ h !! r = Some v') \/ detectionMethod v' = HYBRID).
Proof.
  intros HP Hr.
  destruct (appends_fresh_fold h P S) as [L [added [Ha Fa]]]. cbn [fst snd] in L, Ha, Fa.
  rewrite Ha in Hr. apply in_app_or in Hr as [Hr|Hr].
  - unfold in_heap in HP. rewrite List.Forall_forall in HP.
    destruct (heap_lookup_lt h r (HP r Hr)) as [v Hv].
    destruct (fold_merge_extends P S (h, P)) as [_ E].
    destruct (E r v Hv) as [v' [Hv' _]]. exists v'. split; [exact Hv'|].
    destruct (changes_hybrid_fold h P S r v' Hv') as [Hsame|Hhy].
    + left. split; assumption.
    + right. exact Hhy.
  - rewrite List.Forall_forall in Fa. specialize (Fa r Hr).
    destruct (heap_lookup_lt (fst (combineAnalysisResults h P S)) r (proj2 Fa))
      as [v' Hv'].
    exists v'. split; [exact Hv'|].
    destruct (changes_hybrid_fold h P S r v' Hv') as [Hsame|Hhy].
    + cbn [fst] in Hsame. apply lookup_lt_Some in Hsame. lia.
    + right. exact Hhy.
Qed.

(** X15. When the pattern list refers to objects of the heap none of which
    is tagged AI, no element of the fused list is tagged AI: each one is an
    object of the final heap tagged pattern or hybrid. *)
Theorem merge_result_never_ai (h : heap) (P S : list ref) (r : ref) :
  in_heap h P ->
  (forall p v, In p P -> h !! p = Some v -> detectionMethod v <> AI) ->
  In r (snd (combineAnalysisResults h P S)) ->
  exists v', fst (combineAnalysisResults h P S) !! r = Some v'
             /\ detectionMethod v' <> AI.
Proof.
  intros HP Hno Hr. destruct (result_elements h P S r HP Hr) as [v' [Hv' [[Hin Hsame]|Hhy]]].
  - exists v'. split; [exact Hv'|]. eapply Hno; eassumption.
  - exists v'. split; [exact Hv'|]. rewrite Hhy. discriminate.
Qed.

Lemma merge_result_never_ai_witness :
  exists v', fst (combineAnalysisResults heap_inner_word [0%nat] [1%nat; 1%nat]) !! 0%nat
             = Some v'
             /\ detectionMethod v' <> AI.
Proof.
  apply (merge_result_never_ai heap_inner_word [0%nat] [1%nat; 1%nat] 0%nat).
  - repeat constructor.
  - intros p v [<-|[]] H. inversion H. discriminate.
  - vm_compute. left. reflexivity.
Defined.

End FusionCount.

(** ** Finding ids *)

Section Ids.
Import JsString Regex Client Aux MatcherAux IdAux AiClient.

Lemma join_split (sep : ascii) (s : string) : join sep (split sep s) = s.
Proof.
  induction s as [|c s IH]; [reflexivity|]. cbn [split].
  destruct (Ascii.eqb_spec c sep) as [->|Hne].
  - pose proof (split_nonempty sep s) as Hn.
    destruct (split sep s) as [|h t] eqn:E; [congruence|].
    cbn [join]. cbn [join] in IH. rewrite IH. reflexivity.
  - pose proof (split_nonempty sep s) as Hn.
    destruct (split sep s) as [|h t] eqn:E; [congruence|].
    destruct t as [|h' t].
    + cbn [join] in IH |- *. rewrite IH. reflexivity.
    + cbn [join] in IH |- *. rewrite <- IH. reflexivity.
Qed.

(** A text of the form [a_x], with no underscore in [x], has one reading. *)
Lemma parse_last_underscore (a b x y : string) :
  lacks "_" x = true -> lacks "_" y = true ->
  a ++ String "_" x = b ++ String "_" y -> a = b /\ x = y.
Proof.
  intros Hx Hy E. apply (f_equal (split "_")) in E.
  rewrite !split_app, (split_lacks "_" x Hx), (split_lacks "_" y Hy) in E.
  apply app_inj_tail in E as [E1 E2]. split; [|exact E2].
  rewrite <- (join_split "_" a), <- (join_split "_" b), E1. reflexivity.
Qed.

Lemma pretty_N_char_not_underscore (d : N) : Ascii.eqb (pretty_N_char d) "_" = false.
Proof. unfold pretty_N_char. repeat case_match; reflexivity. Qed.

Lemma pretty_N_go_lacks (x : N) :
  forall s, lacks "_" s = true -> lacks "_" (pretty_N_go x s) = true.
Proof.
  induction (N.lt_wf_0 x) as [x _ IH]. intros s Hs.
  destruct (N.eq_dec x 0%N) as [->|Hx].
  - rewrite pretty_N_go_0. exact Hs.
  - rewrite pretty_N_go_step by lia. apply IH.
    + apply N.div_lt; lia.
    + cbn [lacks]. rewrite pretty_N_char_not_underscore. exact Hs.
Qed.

(** The decimal rendering of an integer has no underscore. *)
Lemma show_lacks_underscore (z : Z) : lacks "_" (show z) = true.
Proof.
  unfold show, pretty, pretty_Z. destruct z as [|p|p]; [reflexivity| |].
  - unfold pretty, pretty_positive, pretty, pretty_N.
    destruct (decide (N.pos p = 0%N)); [reflexivity|]. apply pretty_N_go_lacks. reflexivity.
  - change (lacks "_" (String "-" (pretty p)) = true). cbn [lacks].
    unfold pretty, pretty_positive, pretty, pretty_N.
    destruct (decide (N.pos p = 0%N)); [reflexivity|]. apply pretty_N_go_lacks. reflexivity.
Qed.

Lemma show_inj (a b : Z) : show a = show b -> a = b.
Proof. unfold show. apply pretty_Z_inj. Qed.

Lemma append_assoc (a b c : string) : (a ++ b) ++ c = a ++ (b ++ c).
Proof.
  induction a as [|x a IH]; [reflexivity|].
  change (String x ((a ++ b) ++ c) = String x (a ++ (b ++ c))). rewrite IH. reflexivity.
Qed.

(** An id of the form [prefix_n_c] determines [prefix], [n] and [c]. *)
Lemma parse_two_numbers (p q : string) (n c n' c' : Z) :
  p ++ "_" ++ show n ++ "_" ++ show c = q ++ "_" ++ show n' ++ "_" ++ show c' ->
  p = q /\ n = n' /\ c = c'.
Proof.
  intros E.
  change (p ++ String "_" (show n ++ String "_" (show c))
          = q ++ String "_" (show n' ++ String "_" (show c'))) in E.
  change (String "_" (show n ++ String "_" (show c)))
    with (String "_" (show n) ++ String "_" (show c)) in E.
  change (String "_" (show n' ++ String "_" (show c')))
    with (String "_" (show n') ++ String "_" (show c')) in E.
  rewrite <- !append_assoc in E.
  apply parse_last_underscore in E as [E1 E2]; try apply show_lacks_underscore.
  apply parse_last_underscore in E1 as [E0 E1]; try apply show_lacks_underscore.
  repeat split; auto using show_inj.
Qed.

Lemma registry_members (p : Pattern.VulnerabilityPattern) :
  In p VULNERABILITY_PATTERNS ->
  p = sql_injection_1 \/ p = sql_injection_2 \/ p = sql_injection_3 \/ p = xss_1
  \/ p = xss_2 \/ p = xss_3 \/ p = auth_1 \/ p = auth_2 \/ p = auth_3 \/ p = crypto_1
  \/ p = crypto_2 \/ p = input_1 \/ p = input_2 \/ p = file_1 \/ p = info_1
  \/ p = session_1 \/ p = cors_1.
Proof.
  unfold VULNERABILITY_PATTERNS. cbn [In]. intros H.
  repeat (destruct H as [H|H]; [symmetry in H; tauto|]). contradiction.
Qed.

(** Signature ids are unique in the registry. *)
Lemma registry_ids_unique (p q : Pattern.VulnerabilityPattern) :
  In p VULNERABILITY_PATTERNS -> In q VULNERABILITY_PATTERNS ->
  Pattern.id p = Pattern.id q -> p = q.
Proof.
  intros Hp Hq. apply registry_members in Hp, Hq.
  repeat (destruct Hp as [Hp|Hp]); subst p;
    repeat (destruct Hq as [Hq|Hq]); subst q;
    intros E; try reflexivity; discriminate E.
Qed.

(** X16. Within one scan, the id of a finding determines the finding: two
    findings with the same id agree in every field, so equal ids only ever
    mark exact duplicates. *)
Theorem finding_id_determines_finding (code fileName : string) (v1 v2 : Vulnerability) :
  In v1 (detectPatterns code fileName) ->
  In v2 (detectPatterns code fileName) ->
  id v1 = id v2 -> v1 = v2.
Proof.
  intros H1 H2 E.
  apply detectPatterns_origin in H1 as [n1 [t1 [p1 [m1 [Hn1 [Hp1 [_ ->]]]]]]].
  apply detectPatterns_origin in H2 as [n2 [t2 [p2 [m2 [Hn2 [Hp2 [_ ->]]]]]]].
  cbn [id finding] in E. apply parse_two_numbers in E as [Ep [En Ec]].
  unfold applicablePatterns in Hp1, Hp2.
  apply filter_In in Hp1 as [Hp1 _]. apply filter_In in Hp2 as [Hp2 _].
  pose proof (registry_ids_unique p1 p2 Hp1 Hp2 Ep) as ->.
  apply Nat2Z.inj in En. subst n2.
  pose proof (eq_trans (eq_sym Hn1) Hn2) as Et. inversion Et; subst t2.
  unfold finding. rewrite Ec. reflexivity.
Qed.

Lemma finding_id_determines_finding_witness :
  finding xss_3 (Z.of_nat 0) "eval(a) + eval(b)" "eval("
  = finding xss_3 (Z.of_nat 0) "eval(a) + eval(b)" "eval(".
Proof.
  assert (Hp : In xss_3 (applicablePatterns "app.js")).
  { unfold applicablePatterns. apply filter_In. split; [|reflexivity].
    unfold VULNERABILITY_PATTERNS. do 5 right. left. reflexivity. }
  assert (Hin : In (finding xss_3 (Z.of_nat 0) "eval(a) + eval(b)" "eval(")
                   (detectPatterns "eval(a) + eval(b)" "app.js")).
  { destruct (detectPatterns_segment "eval(a) + eval(b)" "app.js" "eval(a) + eval(b)"
                0 xss_3 eq_refl Hp) as [pre [post E]].
    rewrite E. apply in_or_app. right. apply in_or_app. left.
    unfold findings_of. apply in_map_iff. exists "eval(". split; [reflexivity|].
    vm_compute. left. reflexivity. }
  apply (finding_id_determines_finding "eval(a) + eval(b)" "app.js"); auto.
Defined.

End Ids.

(** ** The semantic reviewer's client and the whole hybrid scan *)

Section Pipeline.
Import JsString Regex Client Aux MatcherAux IdAux AiClient FusionAux FusionMoreAux
       FusionCountAux PipelineAux.

Lemma map_indexed_length (f : string) (l : list AiVulnerability) :
  forall k, length (map_indexed f k l) = length l.
Proof. induction l as [|x l IH]; intros k; simpl; [reflexivity|]. rewrite IH. reflexivity. Qed.

Lemma map_indexed_fields (f : string) (l : list AiVulnerability) :
  forall k, map type (map_indexed f k l) = map ai_type l
            /\ map line (map_indexed f k l) = map ai_line l
            /\ map severity (map_indexed f k l) = map ai_severity l.
Proof.
  induction l as [|x l IH]; intros k; [repeat split; reflexivity|].
  destruct (IH (k + 1)) as [H1 [H2 H3]]. cbn [map_indexed map].
  rewrite H1, H2, H3. repeat split; reflexivity.
Qed.

Lemma toVulnerability_ok (f : string) (k : Z) (x : AiVulnerability) :
  conf_ok (toVulnerability f k x)
  /\ detectionMethod (toVulnerability f k x) = AI
  /\ column (toVulnerability f k x) = 0.
Proof.
  unfold conf_ok. cbn [confidence detectionMethod column toVulnerability].
  repeat split.
  - apply Q.min_glb; [discriminate|apply Q.le_max_l].
  - apply Q.le_min_l.
Qed.

Lemma map_indexed_ok (f : string) (l : list AiVulnerability) :
  forall k, Forall (fun v => conf_ok v /\ detectionMethod v = AI /\ column v = 0)
                   (map_indexed f k l).
Proof.
  induction l as [|x l IH]; intros k; cbn [map_indexed]; constructor.
  - apply toVulnerability_ok.
  - apply IH.
Qed.

Lemma map_indexed_ids (f : string) (l : list AiVulnerability) :
  forall k x, In x (map id (map_indexed f k l)) ->
    exists (pre : string) (i : Z), k <= i /\ x = pre ++ String "_" (show i).
Proof.
  induction l as [|a l IH]; intros k x H; [contradiction|].
  cbn [map_indexed map In] in H. destruct H as [H|H].
  - exists ("ai_" ++ f ++ "_" ++ show (ai_line a)), k. split; [lia|].
    rewrite <- H. cbn [id toVulnerability].
    change ("ai_" ++ f ++ "_" ++ show (ai_line a) ++ "_" ++ show k)
      with ("ai_" ++ (f ++ (String "_" (show (ai_line a)) ++ String "_" (show k)))).
    change ("ai_" ++ f ++ "_" ++ show (ai_line a))
      with ("ai_" ++ (f ++ String "_" (show (ai_line a)))).
    rewrite !append_assoc. reflexivity.
  - destruct (IH (k + 1) x H) as [pre [i [Hi E]]]. exists pre, i. split; [lia|exact E].
Qed.

Lemma map_indexed_nodup (f : string) (l : list AiVulnerability) :
  forall k, NoDup (map id (map_indexed f k l)).
Proof.
  induction l as [|a l IH]; intros k; cbn [map_indexed map]; [constructor|].
  apply NoDup_cons. split; [|apply IH].
  intros Hin. apply list_elem_of_In in Hin.
  destruct (map_indexed_ids f l (k + 1) _ Hin) as [pre [i [Hi E]]].
  assert (E0 : id (toVulnerability f k a)
               = ("ai_" ++ f ++ "_" ++ show (ai_line a)) ++ String "_" (show k)).
  { cbn [id toVulnerability].
    change ("ai_" ++ f ++ "_" ++ show (ai_line a) ++ "_" ++ show k)
      with ("ai_" ++ (f ++ (String "_" (show (ai_line a)) ++ String "_" (show k)))).
    change ("ai_" ++ f ++ "_" ++ show (ai_line a))
      with ("ai_" ++ (f ++ String "_" (show (ai_line a)))).
    rewrite !append_assoc. reflexivity. }
  rewrite E0 in E. apply parse_last_underscore in E as [_ E];
    try apply show_lacks_underscore.
  apply show_inj in E. lia.
Qed.

(** X17. With an API key configured and a parsed answer, [analyzeWithAI]
    returns one finding per reported vulnerability, in the same order and
    with the reported type, line and severity; each has its confidence
    clamped into [0, 100], column 0 and the method AI; and the ids of the
    returned findings are pairwise different. *)
Theorem analyzeWithAI_findings
    (apiKey : option string) (fileName : string) (l : list AiVulnerability) :
  configured apiKey = true ->
  exists out,
    analyzeWithAI apiKey fileName (Parsed l) = Returns out
    /\ length out = length l
    /\ map type out = map ai_type l
    /\ map line out = map ai_line l
    /\ map severity out = map ai_severity l
    /\ Forall (fun v => conf_ok v /\ detectionMethod v = AI /\ column v = 0) out
    /\ NoDup (map id out).
Proof.
  intros Hk. exists (map_indexed fileName 0 l).
  split; [unfold analyzeWithAI; rewrite Hk; reflexivity|].
  split; [apply map_indexed_length|].
  destruct (map_indexed_fields fileName l 0) as [H1 [H2 H3]].
  repeat split; auto using map_indexed_ok, map_indexed_nodup.
Qed.

Lemma analyzeWithAI_findings_witness :
  exists out,
    analyzeWithAI (Some "sk-test") "app.js" (Parsed sample_answer) = Returns out
    /\ length out = length sample_answer
    /\ map type out = map ai_type sample_answer
    /\ map line out = map ai_line sample_answer
    /\ map severity out = map ai_severity sample_answer
    /\ Forall (fun v => conf_ok v /\ detectionMethod v = AI /\ column v = 0) out
    /\ NoDup (map id out).
Proof. apply analyzeWithAI_findings. reflexivity. Defined.

(** X18. [analyzeWithAI] throws exactly when no API key is configured or
    when the attempt fails with a message that contains "API key"; every
    other failure is absorbed and yields the empty list. *)
Theorem analyzeWithAI_failure_modes
    (apiKey : option string) (fileName : string) (attempt : Attempt) :
  ((exists e, analyzeWithAI apiKey fileName attempt = Throws e)
   <-> configured apiKey = false
       \/ exists message, attempt = Failed message /\ includes message "API key" = true)
  /\ (forall message,
        configured apiKey = true -> attempt = Failed message ->
        includes message "API key" = false ->
        analyzeWithAI apiKey fileName attempt = Returns []).
Proof.
  unfold analyzeWithAI. split.
  - split.
    + intros [e H]. destruct (configured apiKey); [right|left; reflexivity].
      cbn [negb] in H. destruct attempt as [message|l]; [|discriminate].
      exists message. split; [reflexivity|].
      destruct (includes message "API key"); [reflexivity|discriminate].
    + intros [Hk|[message [-> H]]].
      * rewrite Hk. exists "OpenAI API key not available". reflexivity.
      * destruct (configured apiKey); cbn [negb].
        -- exists message. rewrite H. reflexivity.
        -- exists "OpenAI API key not available". reflexivity.
  - intros message Hk -> H. rewrite Hk, H. reflexivity.
Qed.

Lemma analyzeWithAI_failure_modes_witness :
  analyzeWithAI (Some "sk-test") "app.js" (Failed "OpenAI API error: 500 Internal Server Error")
  = Returns []
  /\ exists e, analyzeWithAI (Some "sk-test") "app.js"
                 (Failed "OpenAI API error: 401 Invalid API key") = Throws e.
Proof.
  destruct (analyzeWithAI_failure_modes (Some "sk-test") "app.js"
              (Failed "OpenAI API error: 500 Internal Server Error")) as [_ H1].
  destruct (analyzeWithAI_failure_modes (Some "sk-test") "app.js"
              (Failed "OpenAI API error: 401 Invalid API key")) as [[_ H2] _].
  split.
  - eapply H1; reflexivity.
  - apply H2. right. eexists. split; reflexivity.
Defined.

Lemma detect_conf_ok (code fileName : string) :
  Forall (fun v => conf_ok v /\ detectionMethod v = PATTERN) (detectPatterns code fileName).
Proof.
  apply List.Forall_forall. intros v Hv.
  apply detectPatterns_origin in Hv as [n [text [p [m [_ [Hp [_ ->]]]]]]].
  unfold applicablePatterns in Hp. apply filter_In in Hp as [Hp _].
  destruct (registry_finding_metadata p (Z.of_nat n) text m Hp) as [_ [c [Hc Hb]]].
  split; [|reflexivity]. unfold conf_ok. rewrite Hc.
  change 0%Q with (inject_Z 0). change 100%Q with (inject_Z 100).
  rewrite <- !Zle_Qle. lia.
Qed.

Lemma scan_heap_conf_ok (code fileName : string) (l : list AiVulnerability) :
  Forall conf_ok (scan_heap code fileName l).
Proof.
  unfold scan_heap. apply Forall_app. split.
  - eapply Forall_impl; [apply detect_conf_ok|]. cbn. tauto.
  - eapply Forall_impl; [apply (map_indexed_ok fileName l 0)|]. cbn. tauto.
Qed.

Lemma pattern_refs_in_heap (code fileName : string) (l : list AiVulnerability) :
  in_heap (scan_heap code fileName l) (pattern_refs code fileName).
Proof.
  apply List.Forall_forall. intros r Hr. apply in_seq in Hr.
  unfold scan_heap. rewrite length_app. lia.
Qed.

Lemma ai_refs_in_heap (code fileName : string) (l : list AiVulnerability) :
  in_heap (scan_heap code fileName l) (ai_refs code fileName l).
Proof.
  apply List.Forall_forall. intros r Hr. apply in_seq in Hr.
  unfold scan_heap. rewrite length_app, map_indexed_length. lia.
Qed.

(** X19. The hybrid scan end to end: fusing the matcher's findings with the
    converted answer of the reviewer gives a list that has between as many
    elements as the matcher found and that many plus the reviewer's, in which
    every element has a confidence in [0, 100] and is tagged pattern or
    hybrid, never AI. *)
Theorem hybrid_scan_result (code fileName : string) (l : list AiVulnerability) :
  (length (detectPatterns code fileName) <= length (snd (hybrid_scan code fileName l))
   <= length (detectPatterns code fileName) + length l)%nat
  /\ (forall r, In r (snd (hybrid_scan code fileName l)) ->
        exists v, fst (hybrid_scan code fileName l) !! r = Some v
                  /\ conf_ok v /\ detectionMethod v <> AI).
Proof.
  unfold hybrid_scan. split.
  - pose proof (count_fold (pattern_refs code fileName) (scan_heap code fileName l)
                  (ai_refs code fileName l) (pattern_refs_in_heap code fileName l)
                  (ai_refs_in_heap code fileName l) (scan_heap code fileName l)
                  (pattern_refs code fileName) (tracks_refl _)) as C.
    fold (combineAnalysisResults (scan_heap code fileName l) (pattern_refs code fileName)
            (ai_refs code fileName l)) in C.
    pose proof (filter_length_le (novel (scan_heap code fileName l)
                                    (pattern_refs code fileName))
                  (ai_refs code fileName l)) as F.
    unfold pattern_refs, ai_refs in *. rewrite !length_seq in *. lia.
  - intros r Hr.
    destruct (conf_kept_fold (scan_heap code fileName l) (pattern_refs code fileName)
                (ai_refs code fileName l) (scan_heap_conf_ok code fileName l)) as [Hall _].
    destruct (result_elements (scan_heap code fileName l) (pattern_refs code fileName)
                (ai_refs code fileName l) r (pattern_refs_in_heap code fileName l) Hr)
      as [v [Hv Hkind]].
    exists v. split; [exact Hv|]. split; [eapply Forall_lookup_1; eassumption|].
    destruct Hkind as [[Hp Hsame]|Hhy]; [|rewrite Hhy; discriminate].
    unfold pattern_refs in Hp. apply in_seq in Hp.
    assert (Hlt : (r < length (detectPatterns code fileName))%nat) by lia.
    pose proof (lookup_app_l (detectPatterns code fileName)
                  (map_indexed fileName 0 l) r Hlt) as A.
    pose proof (eq_trans (eq_sym A) Hsame) as Hd.
    pose proof (detect_conf_ok code fileName) as D. rewrite List.Forall_forall in D.
    assert (Hin : In v (detectPatterns code fileName)).
    { apply list_elem_of_In, list_elem_of_lookup. exists r. exact Hd. }
    destruct (D v Hin) as [_ ->]. discriminate.
Qed.

Lemma hybrid_scan_result_witness :
  exists v, fst (hybrid_scan "el.innerHTML = userInput" "app.js" sample_answer) !! 0%nat
            = Some v
            /\ conf_ok v /\ detectionMethod v <> AI.
Proof.
  apply (hybrid_scan_result "el.innerHTML = userInput" "app.js" sample_answer).
  vm_compute. left. reflexivity.
Defined.

End Pipeline.

(** ** Server: validation, scores and recommendations *)

Section ServerMoreProps.
Import JsString Server ScoreAux ServerMore ServerMoreAux.
Local Open Scope Q_scope.





Lemma number_or_zero (q d : Q) : q == 0 -> number_or (Some q) d = d.
Proof.
  intros H. unfold number_or. apply Qeq_bool_iff in H. rewrite H. reflexivity.
Qed.

Lemma number_or_nonzero (q d : Q) : ~ q == 0 -> number_or (Some q) d = q.
Proof.
  intros H. unfold number_or. destruct (Qeq_bool q 0) eqn:E; [|reflexivity].
  apply Qeq_bool_iff in E. contradiction.
Qed.

(** X21. In the Gemini module a reported score of 0 is treated like a
    missing one: both are replaced by the fallback score, which is not
    changed by the final clamp; any other reported score is only clamped into
    [0, 100]. *)
Theorem gemini_score_defaulting (vulns : option (list RawVulnerability)) (q : Q) :
  (q == 0 -> Gemini.validate vulns (Some q) = Gemini.validate vulns None)
  /\ Gemini.securityScore (Gemini.validate vulns None)
     == inject_Z (Gemini.calculateFallbackScore
                    (Gemini.vulnerabilities (Gemini.validate vulns None)))
  /\ (~ q == 0 ->
      Gemini.securityScore (Gemini.validate vulns (Some q)) = Qmax 0 (Qmin 100 q)).
Proof.
  split; [|split].
  - intros H. unfold Gemini.validate. rewrite (number_or_zero q _ H). reflexivity.
  - cbn [Gemini.validate Gemini.securityScore Gemini.vulnerabilities number_or].
    set (l := match vulns with Some l => map Gemini.normalise l | None => [] end).
    pose proof (sum_weights_nonneg l) as Hs.
    assert (Hb : (0 <= Gemini.calculateFallbackScore l <= 100)%Z)
      by (rewrite gemini_score_sum; lia).
    assert (H0 : 0 <= inject_Z (Gemini.calculateFallbackScore l))
      by (change 0 with (inject_Z 0); rewrite <- Zle_Qle; lia).
    assert (H1 : inject_Z (Gemini.calculateFallbackScore l) <= 100)
      by (change 100 with (inject_Z 100); rewrite <- Zle_Qle; lia).
    rewrite (Q.min_r _ _ H1). apply Q.max_r. exact H0.
  - intros H. unfold Gemini.validate. cbn [Gemini.securityScore].
    rewrite (number_or_nonzero q _ H). reflexivity.
Qed.

Lemma gemini_score_defaulting_witness :
  Gemini.validate (Some [raw (Some "high") (Some (1 # 2))]) (Some 0)
  = Gemini.validate (Some [raw (Some "high") (Some (1 # 2))]) None
  /\ Gemini.securityScore (Gemini.validate (Some [raw (Some "high") (Some (1 # 2))]) (Some 40))
     = Qmax 0 (Qmin 100 40).
Proof.
  destruct (gemini_score_defaulting (Some [raw (Some "high") (Some (1 # 2))]) 0)
    as [H1 _].
  destruct (gemini_score_defaulting (Some [raw (Some "high") (Some (1 # 2))]) 40)
    as [_ [_ H3]].
  split; [apply H1; reflexivity|apply H3; discriminate].
Defined.

Lemma sum_weights_app (l1 l2 : list Gemini.Vulnerability) :
  sum_weights (l1 ++ l2) = (sum_weights l1 + sum_weights l2)%Z.
Proof. induction l1 as [|x l1 IH]; simpl; [reflexivity|]. rewrite IH. lia. Qed.

Lemma sum_weights_perm (l l' : list Gemini.Vulnerability) :
  Permutation l l' -> sum_weights l = sum_weights l'.
Proof. induction 1; simpl; lia. Qed.

(** X22. The Gemini fallback score does not depend on the order of the
    findings, never goes up when findings are added, and is 0 as soon as the
    weights add up to 100 or more. *)
Theorem gemini_score_order_and_growth (l l' : list Gemini.Vulnerability) :
  (Permutation l l' -> Gemini.calculateFallbackScore l = Gemini.calculateFallbackScore l')
  /\ (Gemini.calculateFallbackScore (l ++ l') <= Gemini.calculateFallbackScore l)%Z
  /\ ((100 <= sum_weights l)%Z -> Gemini.calculateFallbackScore l = 0%Z).
Proof.
  rewrite !gemini_score_sum, sum_weights_app.
  pose proof (sum_weights_nonneg l') as Hn. split; [|split].
  - intros H. rewrite (sum_weights_perm l l' H). reflexivity.
  - lia.
  - lia.
Qed.

Lemma gemini_score_order_and_growth_witness :
  Gemini.calculateFallbackScore
    [Gemini.normalise (raw (Some "high") None); Gemini.normalise (raw (Some "low") None)]
  = Gemini.calculateFallbackScore
      [Gemini.normalise (raw (Some "low") None); Gemini.normalise (raw (Some "high") None)].
Proof.
  apply (proj1 (gemini_score_order_and_growth _ _)). apply perm_swap.
Defined.

End ServerMoreProps.

Section StorageScore.
Import JsString Server ScoreAux ServerMore ServerMoreAux StorageScoreAux.
Local Open Scope Q_scope.

Lemma add_penalty_unknown (p : option Q) (v : RawVulnerability) :
  known_severity (raw_severity v) = None -> Storage.add_penalty p v = None.
Proof.
  intros H. unfold Storage.add_penalty. rewrite weights_lookup_known, H.
  destruct p; reflexivity.
Qed.

Lemma fold_unknown (l : list RawVulnerability) :
  effective l = None -> forall p, fold_left Storage.add_penalty l p = None.
Proof.
  induction l as [|v l IH]; intros H p; [discriminate|]. cbn [effective] in H.
  cbn [fold_left].
  destruct (known_severity (raw_severity v)) as [sev|] eqn:Hs.
  - destruct (effective l); [discriminate|]. apply IH. reflexivity.
  - rewrite (add_penalty_unknown p v Hs). apply fold_add_penalty_nan.
Qed.


(** The score of a non-empty list, from the severities and confidences. *)
Lemma storage_score_form (v : RawVulnerability) (l : list RawVulnerability) :
  Storage.calculateFallbackScore (v :: l) = option_map storage_score (effective (v :: l)).
Proof.
  destruct (effective (v :: l)) as [fs|] eqn:E.
  - destruct (fold_add_penalty (v :: l) fs 0 E) as [p [Hp Hq]].
    unfold Storage.calculateFallbackScore. rewrite Hp. cbn [option_map]. f_equal.
    unfold storage_score, Spec.round1, Math_round. do 2 f_equal. apply Qfloor_comp.
    rewrite Hq, Qplus_0_l. reflexivity.
  - unfold Storage.calculateFallbackScore. rewrite (fold_unknown _ E). reflexivity.
Qed.





Lemma effective_app (l l' : list RawVulnerability) (fs fs' : list (Severity * Q)) :
  effective l = Some fs -> effective l' = Some fs' ->
  effective (l ++ l') = Some (fs ++ fs')%list.
Proof.
  revert fs. induction l as [|v l IH]; intros fs H H'; cbn [effective app] in *.
  - inversion H; subst. exact H'.
  - destruct (known_severity (raw_severity v)); [|discriminate].
    destruct (effective l) as [fs0|]; [|discriminate]. inversion H; subst.
    rewrite (IH fs0 eq_refl H'). reflexivity.
Qed.

Lemma total_penalty_app (fs fs' : list (Severity * Q)) :
  Spec.total_penalty (fs ++ fs') == Spec.total_penalty fs + Spec.total_penalty fs'.
Proof.
  induction fs as [|[sev c] fs IH]; cbn [Spec.total_penalty app]; [ring|].
  rewrite IH. ring.
Qed.

Lemma round1_mono (x y : Q) : x <= y -> Spec.round1 x <= Spec.round1 y.
Proof.
  intros H. unfold Spec.round1. apply Qmult_le_compat_r; [|discriminate].
  rewrite <- Zle_Qle. apply Qfloor_resp_le.
  apply Qplus_le_compat; [|apply Qle_refl].
  apply Qmult_le_compat_r; [exact H|discriminate].
Qed.

Lemma storage_score_bounds (fs : list (Severity * Q)) :
  nonneg_confidences fs -> 0 <= storage_score fs <= 10.
Proof.
  intros H. unfold storage_score. split.
  - apply round1_nonneg, Q.le_max_l.
  - apply round1_le_10. apply Q.max_lub; [discriminate|].
    pose proof (total_penalty_nonneg fs H) as Hp.
    assert (Hd : 0 <= Spec.total_penalty fs / 10).
    { apply Qle_shift_div_l; [reflexivity|]. rewrite Qmult_0_l. exact Hp. }
    apply (Qplus_le_l _ _ (Spec.total_penalty fs / 10)).
    ring_simplify. apply (Qplus_le_compat 0 _ 10 10 Hd (Qle_refl 10)).
Qed.

Lemma storage_score_known (l : list RawVulnerability) (fs : list (Severity * Q)) :
  effective l = Some fs -> nonneg_confidences fs ->
  exists q, Storage.calculateFallbackScore l = Some q /\ 0 <= q <= 10
            /\ (l <> [] -> q = storage_score fs).
Proof.
  intros E H. destruct l as [|v l].
  - exists 10. split; [reflexivity|]. split; [split; discriminate|]. congruence.
  - exists (storage_score fs). rewrite storage_score_form, E. split; [reflexivity|].
    split; [apply storage_score_bounds, H|reflexivity].
Qed.

(** X24. In [server/storage.ts], with known severities and no negative
    confidence, the score lies in [0, 10] and more findings never give a
    higher score: the score of a list followed by further findings is at most
    the score of the list alone. *)
Theorem storage_score_never_rises
    (l l' : list RawVulnerability) (fs fs' : list (Severity * Q)) :
  effective l = Some fs -> effective l' = Some fs' ->
  nonneg_confidences fs -> nonneg_confidences fs' ->
  exists q q',
    Storage.calculateFallbackScore l = Some q
    /\ Storage.calculateFallbackScore (l ++ l') = Some q'
    /\ 0 <= q' /\ q' <= q /\ q <= 10.
Proof.
  intros E E' H H'.
  assert (Happ : nonneg_confidences (fs ++ fs')) by (apply Forall_app; split; assumption).
  destruct (storage_score_known l fs E H) as [q [Hq [Bq Fq]]].
  destruct (storage_score_known (l ++ l') (fs ++ fs') (effective_app _ _ _ _ E E') Happ)
    as [q' [Hq' [Bq' Fq']]].
  exists q, q'. repeat split; try tauto.
  destruct l as [|v l].
  - inversion Hq; subst. tauto.
  - rewrite Fq by discriminate. rewrite Fq' by discriminate.
    unfold storage_score. apply round1_mono. apply Q.max_le_compat_l.
    rewrite total_penalty_app.
    pose proof (total_penalty_nonneg fs' H') as Hp.
    unfold Qminus. apply Qplus_le_r. apply Qopp_le_compat.
    unfold Qdiv. apply Qmult_le_compat_r; [|discriminate].
    apply (Qle_trans _ (Spec.total_penalty fs + 0)); [rewrite Qplus_0_r; apply Qle_refl|].
    apply Qplus_le_r. exact Hp.
Qed.

Lemma storage_score_never_rises_witness :
  exists q q',
    Storage.calculateFallbackScore [raw (Some "critical") (Some (9 # 10))] = Some q
    /\ Storage.calculateFallbackScore
         ([raw (Some "critical") (Some (9 # 10))] ++ [raw (Some "low") None]) = Some q'
    /\ 0 <= q' /\ q' <= q /\ q <= 10.
Proof.
  apply (storage_score_never_rises [raw (Some "critical") (Some (9 # 10))]
           [raw (Some "low") None] [(critical, 9 # 10)] [(low, 8 # 10)]);
    try reflexivity; repeat constructor; discriminate.
Defined.

End StorageScore.

Section Recommendations.
Import JsString Server ScoreAux ServerMore ServerMoreAux StorageScoreAux RecommendationAux.

Lemma listed_In (x : string) (l : list string) : listed x l = true <-> In x l.
Proof.
  unfold listed. rewrite existsb_exists. split.
  - intros [y [Hy E]]. apply String.eqb_eq in E. subst y. exact Hy.
  - intros H. exists x. split; [exact H|apply String.eqb_refl].
Qed.

Lemma not_listed_In (x : string) (l : list string) : listed x l = false -> ~ In x l.
Proof. intros H Hin. apply listed_In in Hin. congruence. Qed.

Lemma storage_list_facts (sql xss secrets : bool) :
  length (storage_list sql xss secrets) = 8%nat
  /\ listed "Use static analysis tools in your CI/CD pipeline"
            (storage_list sql xss secrets) = false
  /\ listed "Conduct regular security code reviews" (storage_list sql xss secrets) = false
  /\ listed Storage.rec_sql (storage_list sql xss secrets) = sql
  /\ listed Storage.rec_xss (storage_list sql xss secrets) = xss
  /\ listed Storage.rec_secrets (storage_list sql xss secrets) = secrets
  /\ forallb (fun x => listed x (storage_list sql xss secrets))
             (firstn 5 Storage.base_recommendations) = true.
Proof. destruct sql, xss, secrets; vm_compute; repeat split; reflexivity. Qed.

(** X25. [generateDefaultRecommendations] of [server/storage.ts] returns
    exactly eight recommendations whenever every finding has a type: the
    first five general ones are always among them, each specific one is
    present exactly when its category occurs among the lower-cased types, and
    the last two general ones are never returned. *)
Theorem storage_recommendations (vulns : list RawVulnerability) (types : list string) :
  Storage.vulnTypes vulns = Some types ->
  exists recs,
    Storage.generateDefaultRecommendations vulns = Some recs
    /\ length recs = 8%nat
    /\ ~ In "Use static analysis tools in your CI/CD pipeline" recs
    /\ ~ In "Conduct regular security code reviews" recs
    /\ (In Storage.rec_sql recs <-> Storage.has types "sql injection" = true)
    /\ (In Storage.rec_xss recs
        <-> Storage.has types "xss" || Storage.has types "cross-site scripting" = true)
    /\ (In Storage.rec_secrets recs
        <-> Storage.has types "hardcoded secrets"
            || Storage.has types "hardcoded credentials" = true)
    /\ (forall x, In x (firstn 5 Storage.base_recommendations) -> In x recs).
Proof.
  intros H.
  exists (storage_list (Storage.has types "sql injection")
            (Storage.has types "xss" || Storage.has types "cross-site scripting")
            (Storage.has types "hardcoded secrets"
             || Storage.has types "hardcoded credentials")).
  split.
  { unfold Storage.generateDefaultRecommendations. rewrite H. reflexivity. }
  destruct (storage_list_facts (Storage.has types "sql injection")
              (Storage.has types "xss" || Storage.has types "cross-site scripting")
              (Storage.has types "hardcoded secrets"
               || Storage.has types "hardcoded credentials"))
    as [F1 [F2 [F3 [F4 [F5 [F6 F7]]]]]].
  split; [exact F1|].
  split; [apply not_listed_In, F2|].
  split; [apply not_listed_In, F3|].
  split; [rewrite <- listed_In, F4; reflexivity|].
  split; [rewrite <- listed_In, F5; reflexivity|].
  split; [rewrite <- listed_In, F6; reflexivity|].
  intros x Hx. rewrite forallb_forall in F7. apply listed_In, F7, Hx.
Qed.

Lemma storage_recommendations_witness :
  exists recs,
    Storage.generateDefaultRecommendations [typed "SQL Injection"; typed "XSS"] = Some recs
    /\ length recs = 8%nat.
Proof.
  destruct (storage_recommendations [typed "SQL Injection"; typed "XSS"]
              ["sql injection"; "xss"] eq_refl) as [recs [H1 [H2 _]]].
  exists recs. split; assumption.
Defined.

Lemma in_firstn_in {A : Type} (x : A) (n : nat) (l : list A) :
  In x (firstn n l) -> In x l.
Proof.
  revert l. induction n as [|n IH]; intros [|y l] H; try contradiction.
  cbn [firstn In] in H. destruct H as [H|H]; [left; exact H|right; apply IH, H].
Qed.

Lemma mentions_app (w : string) (l l' : list Gemini.Vulnerability) :
  ServerMore.Gemini.mentions w (l ++ l')
  = ServerMore.Gemini.mentions w l || ServerMore.Gemini.mentions w l'.
Proof. unfold ServerMore.Gemini.mentions. apply existsb_app. Qed.

Lemma gemini_list_facts (a b c : bool) :
  let r := ServerMore.Gemini.push_if c ServerMore.Gemini.rec_secret
             (ServerMore.Gemini.push_if b ServerMore.Gemini.rec_xss
                (ServerMore.Gemini.push_if a ServerMore.Gemini.rec_sql
                   ServerMore.Gemini.base_recommendations)) in
  length r = (4 + b2n a + b2n b + b2n c)%nat
  /\ firstn 4 r = ServerMore.Gemini.base_recommendations
  /\ listed ServerMore.Gemini.rec_sql r = a
  /\ listed ServerMore.Gemini.rec_xss r = b
  /\ listed ServerMore.Gemini.rec_secret r = c
  /\ forallb (fun x => listed x ServerMore.Gemini.base_recommendations
                       || String.eqb x ServerMore.Gemini.rec_sql
                       || String.eqb x ServerMore.Gemini.rec_xss
                       || String.eqb x ServerMore.Gemini.rec_secret) r = true.
Proof. destruct a, b, c; vm_compute; repeat split; reflexivity. Qed.

(** X26. [generateDefaultRecommendations] of the Gemini module always starts
    with the four general recommendations, adds each of the three specific
    ones exactly when some finding's lower-cased type contains its keyword
    (sql, xss, secret), so it returns between four and seven entries; and
    every recommendation given for a list is still given when findings are
    added to it. *)
Theorem gemini_recommendations (l l' : list Gemini.Vulnerability) :
  firstn 4 (ServerMore.Gemini.generateDefaultRecommendations l)
  = ServerMore.Gemini.base_recommendations
  /\ length (ServerMore.Gemini.generateDefaultRecommendations l)
     = (4 + b2n (ServerMore.Gemini.mentions "sql" l)
        + b2n (ServerMore.Gemini.mentions "xss" l)
        + b2n (ServerMore.Gemini.mentions "secret" l))%nat
  /\ (In ServerMore.Gemini.rec_sql (ServerMore.Gemini.generateDefaultRecommendations l)
      <-> ServerMore.Gemini.mentions "sql" l = true)
  /\ (In ServerMore.Gemini.rec_xss (ServerMore.Gemini.generateDefaultRecommendations l)
      <-> ServerMore.Gemini.mentions "xss" l = true)
  /\ (In ServerMore.Gemini.rec_secret (ServerMore.Gemini.generateDefaultRecommendations l)
      <-> ServerMore.Gemini.mentions "secret" l = true)
  /\ (forall x, In x (ServerMore.Gemini.generateDefaultRecommendations l) ->
                In x (ServerMore.Gemini.generateDefaultRecommendations (l ++ l'))).
Proof.
  unfold ServerMore.Gemini.generateDefaultRecommendations.
  destruct (gemini_list_facts (ServerMore.Gemini.mentions "sql" l)
              (ServerMore.Gemini.mentions "xss" l)
              (ServerMore.Gemini.mentions "secret" l)) as [F1 [F2 [F3 [F4 [F5 F6]]]]].
  destruct (gemini_list_facts (ServerMore.Gemini.mentions "sql" (l ++ l'))
              (ServerMore.Gemini.mentions "xss" (l ++ l'))
              (ServerMore.Gemini.mentions "secret" (l ++ l'))) as [_ [G2 [G3 [G4 [G5 _]]]]].
  split; [exact F2|]. split; [exact F1|].
  split; [rewrite <- listed_In, F3; reflexivity|].
  split; [rewrite <- listed_In, F4; reflexivity|].
  split; [rewrite <- listed_In, F5; reflexivity|].
  intros x Hx. rewrite forallb_forall in F6. pose proof (F6 x Hx) as Hc.
  apply listed_In in Hx.
  apply orb_prop in Hc as [Hc|Hc]; [apply orb_prop in Hc as [Hc|Hc];
                                     [apply orb_prop in Hc as [Hc|Hc]|]|].
  - apply listed_In in Hc. rewrite <- G2 in Hc. revert Hc. apply in_firstn_in.
  - apply String.eqb_eq in Hc. subst x. apply listed_In. rewrite G3.
    rewrite mentions_app. rewrite F3 in Hx. rewrite Hx. reflexivity.
  - apply String.eqb_eq in Hc. subst x. apply listed_In. rewrite G4.
    rewrite mentions_app. rewrite F4 in Hx. rewrite Hx. reflexivity.
  - apply String.eqb_eq in Hc. subst x. apply listed_In. rewrite G5.
    rewrite mentions_app. rewrite F5 in Hx. rewrite Hx. reflexivity.
Qed.

Lemma gemini_recommendations_witness :
  In ServerMore.Gemini.rec_sql
     (ServerMore.Gemini.generateDefaultRecommendations
        ([Gemini.normalise (typed "Blind SQL injection")] ++ [])).
Proof.
  destruct (gemini_recommendations [Gemini.normalise (typed "Blind SQL injection")] [])
    as [_ [_ [H [_ [_ Hm]]]]].
  apply Hm. apply H. reflexivity.
Defined.

End Recommendations.

Section StorageValidate.
Import JsString Server ScoreAux ServerMore ServerMoreAux StorageScoreAux RecommendationAux
       StorageValidateAux.
Local Open Scope Q_scope.

Lemma validate_fields (r : Storage.Response) (a : Storage.SecurityAnalysis) :
  Storage.validate r = Some a ->
  Storage.vulnerabilities a
  = match Storage.r_vulnerabilities r with Some l => l | None => [] end
  /\ Storage.securityScore a
     = (if Storage.score_invalid (Storage.r_securityScore r)
        then Server.Storage.calculateFallbackScore (Storage.vulnerabilities a)
        else Storage.r_securityScore r)
  /\ (Storage.r_summary r = None ->
      Storage.summary a
      = {| Storage.s_critical := Storage.count_named "critical" (Storage.vulnerabilities a);
           Storage.s_high := Storage.count_named "high" (Storage.vulnerabilities a);
           Storage.s_medium := Storage.count_named "medium" (Storage.vulnerabilities a);
           Storage.s_low := Storage.count_named "low" (Storage.vulnerabilities a) |}).
Proof.
  unfold Storage.validate. intros H.
  destruct (Storage.r_recommendations r) as [recs|].
  - inversion H; subst a. cbn. repeat split. intros ->. reflexivity.
  - destruct (Storage.generateDefaultRecommendations _) as [recs|]; [|discriminate].
    inversion H; subst a. cbn. repeat split. intros ->. reflexivity.
Qed.

(** X27. After the validation of [server/storage.ts], a reported score
    within [0, 10] is kept as it is; and whenever every severity is known and
    no confidence is negative, the score of the returned analysis is a number
    in [0, 10], reported or recomputed. *)
Theorem storage_validate_score (r : Storage.Response) (a : Storage.SecurityAnalysis) :
  Storage.validate r = Some a ->
  (forall q, Storage.r_securityScore r = Some q -> 0 <= q <= 10 ->
             Storage.securityScore a = Some q)
  /\ (forall fs, effective (Storage.vulnerabilities a) = Some fs ->
                 nonneg_confidences fs ->
                 exists q, Storage.securityScore a = Some q /\ 0 <= q <= 10).
Proof.
  intros H. destruct (validate_fields r a H) as [_ [Hs _]]. split.
  - intros q Hq [H0 H1]. rewrite Hs, Hq. cbn [Storage.score_invalid].
    apply Qle_bool_iff in H0, H1. rewrite H0, H1. reflexivity.
  - intros fs E Hn. rewrite Hs.
    destruct (Storage.r_securityScore r) as [q|] eqn:Hq; cbn [Storage.score_invalid].
    + destruct (Qle_bool 0 q) eqn:B0; destruct (Qle_bool q 10) eqn:B1; cbn [negb orb];
        try (destruct (storage_score_known _ fs E Hn) as [q' [Hq' [Bq' _]]];
             exists q'; split; [exact Hq'|exact Bq']).
      exists q. split; [reflexivity|]. apply Qle_bool_iff in B0, B1. split; assumption.
    + destruct (storage_score_known _ fs E Hn) as [q' [Hq' [Bq' _]]].
      exists q'. split; [exact Hq'|exact Bq'].
Qed.

Lemma storage_validate_score_witness :
  exists q, Storage.securityScore
              {| Storage.vulnerabilities := [raw (Some "critical") (Some (9 # 10))];
                 Storage.securityScore :=
                   Server.Storage.calculateFallbackScore
                     [raw (Some "critical") (Some (9 # 10))];
                 Storage.summary := Storage.mkSummary 1 0 0 0;
                 Storage.recommendations := ["r"] |} = Some q
            /\ 0 <= q <= 10.
Proof.
  destruct (storage_validate_score
              (response [raw (Some "critical") (Some (9 # 10))] (Some 42) (Some ["r"]))
              _ eq_refl) as [_ H].
  apply (H [(critical, 9 # 10)]); [reflexivity|]. repeat constructor. discriminate.
Defined.




Lemma count_named_known (l : list RawVulnerability) :
  (Storage.count_named "critical" l + Storage.count_named "high" l
   + Storage.count_named "medium" l + Storage.count_named "low" l)%nat
  = length (List.filter has_known_severity l).
Proof.
  unfold Storage.count_named. induction l as [|v l IH]; [reflexivity|].
  cbn [List.filter]. unfold has_known_severity at 1. unfold known_severity.
  destruct (raw_severity v) as [s|]; [|exact IH].
  unfold parse_severity.
  destruct (String.eqb_spec s "low") as [->|H1]; [cbn; lia|].
  destruct (String.eqb_spec s "medium") as [->|H2]; [cbn; lia|].
  destruct (String.eqb_spec s "high") as [->|H3]; [cbn; lia|].
  destruct (String.eqb_spec s "critical") as [->|H4]; [cbn; lia|].
  exact IH.
Qed.

(** X29. When [server/storage.ts] computes the summary itself, the four
    counters add up to the number of findings whose severity is one of the
    four names; findings with any other severity are in the list but in no
    counter, so the total can be smaller than the number of findings. *)
Theorem storage_summary_counts_known (r : Storage.Response) (a : Storage.SecurityAnalysis) :
  Storage.validate r = Some a ->
  Storage.r_summary r = None ->
  summary_total (Storage.summary a)
  = length (List.filter has_known_severity (Storage.vulnerabilities a))
  /\ (summary_total (Storage.summary a) <= length (Storage.vulnerabilities a))%nat.
Proof.
  intros H Hs. destruct (validate_fields r a H) as [_ [_ Hsum]].
  rewrite (Hsum Hs). unfold summary_total.
  cbn [Storage.s_critical Storage.s_high Storage.s_medium Storage.s_low].
  rewrite count_named_known. split; [reflexivity|apply filter_length_le].
Qed.

Lemma storage_summary_counts_known_witness :
  summary_total
    (Storage.mkSummary
       (Storage.count_named "critical" [raw (Some "urgent") None; raw (Some "low") None])
       (Storage.count_named "high" [raw (Some "urgent") None; raw (Some "low") None])
       (Storage.count_named "medium" [raw (Some "urgent") None; raw (Some "low") None])
       (Storage.count_named "low" [raw (Some "urgent") None; raw (Some "low") None]))
  = length (List.filter has_known_severity [raw (Some "urgent") None; raw (Some "low") None]).
Proof.
  apply (storage_summary_counts_known
           (response [raw (Some "urgent") None; raw (Some "low") None] None (Some ["r"]))
           _ eq_refl eq_refl).
Defined.

End StorageValidate.
